(** * Offer dashboard (pulse_id_sql_interface.py): a shallow embedding

    The Python script is a Streamlit page.  Its logic is a handful of
    button handlers that read and write [st.session_state], two helper
    functions that talk to remote services, one regular-expression
    substitution and one list sort.  This file embeds those parts as Rocq
    functions and states the properties of the dashboard against them.

    Conventions
    - a Python value that can live in the session state or come out of
      [json.loads] is a [json] value; Python's [None] is [JNull];
    - a text is a [string]; characters outside ASCII are there as their
      UTF-8 bytes, which the one pattern of the script treats like any
      other character;
    - an expression that may raise returns [res A]; a raised exception is
      [Raise e];
    - what the marketplace and the language model answer is an input of
      the handlers (the [remote] and [llm] records), and so is the
      current time;
    - library functions whose code is not part of the script ([json.loads],
      [datetime.strptime], [float]) are fields of the [Runtime] class;
      [timedelta] on a double is the field of the [Timedelta] class. *)

From Stdlib Require Import Bool Ascii String List ZArith Lia.
From Stdlib Require Import SpecFloat.
From Stdlib Require DecimalString.
Import ListNotations.

Local Open Scope string_scope.
Local Open Scope list_scope.

Set Implicit Arguments.

(** ** Python values and exceptions *)

Module Py.

(** The exception classes the script can meet.  All of them derive from
    [Exception], so every [except Exception] clause catches them. *)
Inductive exn : Type :=
| TypeError
| ValueError
| KeyError
| IndexError
| AttributeError
| JSONDecodeError
| RequestException
| APIError
| OverflowError
| PlainException (msg : string).

Inductive res (A : Type) : Type :=
| Ok (a : A)
| Raise (e : exn).

Arguments Ok {A} a.
Arguments Raise {A} e.

Definition bind {A B : Type} (m : res A) (k : A -> res B) : res B :=
  match m with
  | Ok a => k a
  | Raise e => Raise e
  end.

Definition raises {A : Type} (m : res A) : bool :=
  match m with
  | Ok _ => false
  | Raise _ => true
  end.

(** Values: what [json.loads] and [response.json()] build.  A [dict] is
    kept as an association list in insertion order; lookup takes the
    first binding of a key. *)
#[warnings="-register-all"]
Inductive json : Type :=
| JNull
| JBool (b : bool)
| JInt (n : Z)
| JFloat (f : spec_float)
| JStr (s : string)
| JArr (l : list json)
| JObj (d : list (string * json)).

Fixpoint lookup (k : string) (d : list (string * json)) : option json :=
  match d with
  | [] => None
  | (k', v) :: r => if String.eqb k k' then Some v else lookup k r
  end.

Definition float_is_zero (f : spec_float) : bool :=
  match f with
  | S754_zero _ => true
  | _ => false
  end.

(** [bool(v)]. *)
Definition truthy (v : json) : bool :=
  match v with
  | JNull => false
  | JBool b => b
  | JInt n => negb (n =? 0)%Z
  | JFloat f => negb (float_is_zero f)
  | JStr s => negb (String.eqb s "")
  | JArr l => match l with [] => false | _ => true end
  | JObj d => match d with [] => false | _ => true end
  end.

(** [a or b], on values. *)
Definition por (a b : json) : json := if truthy a then a else b.

(** [int == float], exact as in Python. *)
Definition int_eq_float (n : Z) (f : spec_float) : bool :=
  match f with
  | S754_zero _ => (n =? 0)%Z
  | S754_finite s m e =>
      let v := if s then Z.neg m else Z.pos m in
      if (0 <=? e)%Z then (n =? v * 2 ^ e)%Z
      else (n * 2 ^ (- e) =? v)%Z
  | _ => false
  end.

Definition bool_to_Z (b : bool) : Z := if b then 1%Z else 0%Z.

Definition is_nan (f : spec_float) : bool :=
  match f with
  | S754_nan => true
  | _ => false
  end.

(** The comparison the interpreter makes between two items, as [in] on
    a list does and as [==] does between the items of two lists and the
    values of two dicts: the same object, or [==].  For values that come
    out of the [json] module the one case where the first part matters
    is NaN: the module keeps NaN as a single [float] object, so NaN is
    NaN although it does not equal itself (the listing and the reply are
    both taken to be parsed by that module).  [bool] is a subclass of
    [int]. *)
Fixpoint same_or_eq (a b : json) {struct a} : bool :=
  match a, b with
  | JNull, JNull => true
  | JBool x, JBool y => Bool.eqb x y
  | JBool x, JInt n => (bool_to_Z x =? n)%Z
  | JInt n, JBool y => (n =? bool_to_Z y)%Z
  | JBool x, JFloat f => int_eq_float (bool_to_Z x) f
  | JFloat f, JBool y => int_eq_float (bool_to_Z y) f
  | JInt n, JInt m => (n =? m)%Z
  | JInt n, JFloat f => int_eq_float n f
  | JFloat f, JInt n => int_eq_float n f
  | JFloat f, JFloat g => (is_nan f && is_nan g) || SFeqb f g
  | JStr s, JStr t => String.eqb s t
  | JArr l, JArr l' =>
      (fix go (xs ys : list json) {struct xs} : bool :=
         match xs, ys with
         | [], [] => true
         | x :: xs', y :: ys' => same_or_eq x y && go xs' ys'
         | _, _ => false
         end) l l'
  | JObj d, JObj d' =>
      (length d =? length d')%nat &&
      (fix go (kvs : list (string * json)) {struct kvs} : bool :=
         match kvs with
         | [] => true
         | (k, v) :: r =>
             match lookup k d' with
             | Some w => same_or_eq v w && go r
             | None => false
             end
         end) d
  | _, _ => false
  end.

(** [a == b]: between two [float]s the numbers are compared, so NaN
    equals nothing, itself included; everything else is compared as
    above. *)
Definition eq (a b : json) : bool :=
  match a, b with
  | JFloat f, JFloat g => SFeqb f g
  | _, _ => same_or_eq a b
  end.

(** [o.get(k, default)]: only a [dict] has the method. *)
Definition get (o : json) (k : string) (default : json) : res json :=
  match o with
  | JObj d => Ok (match lookup k d with Some v => v | None => default end)
  | _ => Raise AttributeError
  end.

(** [o[k]] for a string key. *)
Definition getitem (o : json) (k : string) : res json :=
  match o with
  | JObj d => match lookup k d with Some v => Ok v | None => Raise KeyError end
  | _ => Raise TypeError
  end.

(** [o[0]]. *)
Definition getitem0 (o : json) : res json :=
  match o with
  | JArr [] => Raise IndexError
  | JArr (x :: _) => Ok x
  | JStr EmptyString => Raise IndexError
  | JStr (String c _) => Ok (JStr (String c EmptyString))
  | JObj _ => Raise KeyError
  | _ => Raise TypeError
  end.

Fixpoint chars (s : string) : list json :=
  match s with
  | EmptyString => []
  | String c t => JStr (String c EmptyString) :: chars t
  end.

(** What [for x in o] walks through. *)
Definition iter (o : json) : res (list json) :=
  match o with
  | JArr l => Ok l
  | JObj d => Ok (map (fun kv => JStr (fst kv)) d)
  | JStr s => Ok (chars s)
  | _ => Raise TypeError
  end.

Fixpoint drop_prefix (p s : string) : option string :=
  match p with
  | EmptyString => Some s
  | String a p' =>
      match s with
      | EmptyString => None
      | String b s' => if Ascii.eqb a b then drop_prefix p' s' else None
      end
  end.

(** [p in s] for two strings. *)
Fixpoint occurs (p s : string) : bool :=
  match drop_prefix p s with
  | Some _ => true
  | None =>
      match s with
      | EmptyString => false
      | String _ t => occurs p t
      end
  end.

Definition hashable (v : json) : bool :=
  match v with
  | JArr _ | JObj _ => false
  | _ => true
  end.

(** [x in c].  On a list an item counts when it is the same object as
    [x] or equals it. *)
Definition contains (x c : json) : res bool :=
  match c with
  | JArr l => Ok (existsb (same_or_eq x) l)
  | JObj d =>
      if hashable x then Ok (existsb (fun kv => eq x (JStr (fst kv))) d)
      else Raise TypeError
  | JStr s =>
      match x with
      | JStr p => Ok (occurs p s)
      | _ => Raise TypeError
      end
  | _ => Raise TypeError
  end.

End Py.

Import Py.

Notation "x <- m ;; k" := (Py.bind m (fun x => k))
  (at level 61, m at next level, right associativity).

(** ** The code-fence substitution

    [re.sub(r'```json\n?(.*?)\n?```', r'\1', content, flags=re.DOTALL)]

    The pattern is matched the way the backtracking engine does it: the
    literal opening, a greedy optional newline, a lazy run of arbitrary
    characters (DOTALL: newlines too), a greedy optional newline and the
    literal closing.  [re.sub] scans left to right, replaces every match by
    its group 1 and resumes after the match. *)

Module Fence.

Definition nl : ascii := "010"%char.

Definition fence : string := "```".
Definition fence_json : string := "```json".

(** [\n?```] at the start of [s], greedy: the newline is taken when
    there is one, and left out when the closing does not follow it. *)
Definition closing (s : string) : option string :=
  match s with
  | String c t =>
      if Ascii.eqb c nl then
        match drop_prefix fence t with
        | Some rest => Some rest
        | None => drop_prefix fence s
        end
      else drop_prefix fence s
  | EmptyString => drop_prefix fence s
  end.

(** [(.*?)\n?```] at the start of [s]: the group and what follows the
    match.  The lazy group is tried at every length in increasing
    order. *)
Fixpoint lazy_body (s : string) : option (string * string) :=
  match closing s with
  | Some rest => Some (EmptyString, rest)
  | None =>
      match s with
      | EmptyString => None
      | String c t =>
          match lazy_body t with
          | Some (g, rest) => Some (String c g, rest)
          | None => None
          end
      end
  end.

(** The whole pattern at the start of [s]. *)
Definition match_at (s : string) : option (string * string) :=
  match drop_prefix fence_json s with
  | None => None
  | Some r =>
      match r with
      | String c t =>
          if Ascii.eqb c nl then
            match lazy_body t with
            | Some m => Some m
            | None => lazy_body r
            end
          else lazy_body r
      | EmptyString => lazy_body r
      end
  end.

(** The scan of [re.sub]; every step consumes at least one character, so
    [length s] steps are enough (see [re_sub_fuel_enough]). *)
Fixpoint re_sub_fuel (fuel : nat) (s : string) : string :=
  match fuel with
  | O => s
  | S fuel' =>
      match match_at s with
      | Some (g, rest) => g ++ re_sub_fuel fuel' rest
      | None =>
          match s with
          | EmptyString => EmptyString
          | String c t => String c (re_sub_fuel fuel' t)
          end
      end
  end.

Definition re_sub (s : string) : string := re_sub_fuel (String.length s) s.

(** On the message content, which can be [None]. *)
Definition strip_fences (content : option string) : res string :=
  match content with
  | Some s => Ok (re_sub s)
  | None => Raise TypeError
  end.

End Fence.

(** ** Library functions

    The script calls three library functions whose code is not its own.
    - [json_loads s] is [json.loads(s)];
    - [strptime s] is [datetime.strptime(s, fmt)] with the one format the
      script uses, year-month-day hour:minute; a [datetime] is kept as the
      number of microseconds since the start of year 1, so that
      subtraction is integer subtraction;
    - [float_gt_50 v] is [float(v) > 50]. *)

Class Runtime : Type := {
  json_loads : string -> res json;
  strptime : string -> res Z;
  float_gt_50 : json -> res bool
}.

Definition usec_per_day : Z := 86400000000.

(** [timedelta.days]: a [timedelta] is normalised so that its seconds and
    microseconds are not negative; the day count is the floor. *)
Definition td_days (delta : Z) : Z := (delta / usec_per_day)%Z.

(** ** Session state and what a handler leaves behind *)

Record credentials : Type := {
  email : string;
  password : string;
  app : string
}.

Record session : Type := {
  offer_params : json;
  offer_created : bool;
  adjusted_params : json;
  lms_credentials : credentials;
  pending_offers : json;
  filtered_offers : json
}.

(** The state the script sets up on its first run (lines 10-25). *)
Definition initial_session (c : credentials) : session :=
  {| offer_params := JNull;
     offer_created := false;
     adjusted_params := JNull;
     lms_credentials := c;
     pending_offers := JNull;
     filtered_offers := JNull |}.

Definition set_pending (v : json) (st : session) : session :=
  {| offer_params := offer_params st;
     offer_created := offer_created st;
     adjusted_params := adjusted_params st;
     lms_credentials := lms_credentials st;
     pending_offers := v;
     filtered_offers := filtered_offers st |}.

Definition set_filtered (v : json) (st : session) : session :=
  {| offer_params := offer_params st;
     offer_created := offer_created st;
     adjusted_params := adjusted_params st;
     lms_credentials := lms_credentials st;
     pending_offers := pending_offers st;
     filtered_offers := v |}.

Definition set_offer_params (v : json) (st : session) : session :=
  {| offer_params := v;
     offer_created := offer_created st;
     adjusted_params := adjusted_params st;
     lms_credentials := lms_credentials st;
     pending_offers := pending_offers st;
     filtered_offers := filtered_offers st |}.

Definition set_adjusted_params (v : json) (st : session) : session :=
  {| offer_params := offer_params st;
     offer_created := offer_created st;
     adjusted_params := v;
     lms_credentials := lms_credentials st;
     pending_offers := pending_offers st;
     filtered_offers := filtered_offers st |}.

Definition set_offer_created (b : bool) (st : session) : session :=
  {| offer_params := offer_params st;
     offer_created := b;
     adjusted_params := adjusted_params st;
     lms_credentials := lms_credentials st;
     pending_offers := pending_offers st;
     filtered_offers := filtered_offers st |}.

(** Messages put on the page: [st.error], [st.warning], [st.info]. *)
Inductive ui : Type :=
| UiError (prefix : string) (e : exn)
| UiWarning (msg : string)
| UiInfo (msg : string).

(** How a handler ends: it falls through, it calls [st.rerun()], or an
    exception leaves it uncaught (the script run stops there). *)
Inductive control : Type :=
| Continue
| Rerun
| Uncaught (e : exn).

Record outcome : Type := {
  out_state : session;
  out_ui : list ui;
  out_ctl : control
}.

(** ** Marketplace client (lines 31-69) *)

Record response : Type := {
  ok : bool;
  status_code : Z;
  body : res json
}.

(** The remote service: what [requests.post] and [requests.get] do with
    the arguments the script gives them. *)
Record remote : Type := {
  post_login : string -> string -> string -> res response;
  get_pending : json -> json -> res response
}.

Definition authenticate_user (w : remote) (e p a : string)
  : res (json * json) :=
  r <- post_login w e p a ;;
  if negb (ok r) then Raise (PlainException "Authentication failed")
  else
    auth_data <- body r ;;
    d <- getitem auth_data "data" ;;
    l <- getitem d "auth" ;;
    a0 <- getitem0 l ;;
    permissionToken <- getitem a0 "permissionToken" ;;
    d' <- getitem auth_data "data" ;;
    l' <- getitem d' "auth" ;;
    a0' <- getitem0 l' ;;
    authToken <- getitem a0' "authToken" ;;
    Ok (permissionToken, authToken).

Definition get_pending_offers (w : remote) (permission_token auth_token : json)
  : res json :=
  r <- get_pending w permission_token auth_token ;;
  if negb (status_code r =? 200)%Z
  then Raise (PlainException "Failed to retrieve offers")
  else body r.

(** The body of the [try] of [fetch_pending_offers]: the listing and the
    value to store. *)
Definition fetch_try (w : remote) (st : session) : res (json * json) :=
  let c := lms_credentials st in
  auth <- authenticate_user w (email c) (password c) (app c) ;;
  offers <- get_pending_offers w (fst auth) (snd auth) ;;
  fetched <- get offers "offers" (JArr []) ;;
  Ok (offers, fetched).

(** Returns the new state, the messages and the returned value ([None]
    is Python's [None]). *)
Definition fetch_pending_offers (w : remote) (st : session)
  : session * list ui * option json :=
  match fetch_try w st with
  | Ok (offers, fetched) => (set_pending fetched st, [], Some offers)
  | Raise e => (st, [UiError "Failed to fetch offers: " e], None)
  end.

(** ** Offer filter (lines 71-105) *)

(** What the language-model client does: building the client, and the
    request together with reading [response.choices[0].message.content]
    (which can be [None]). *)
Record llm : Type := {
  client : res unit;
  chat : res (option string)
}.

(** One line of [offers_str].  The text goes to the model, whose answer is
    an input here; only whether building the line raises is kept. *)
Definition offer_summary (offer : json) : res unit :=
  _ <- get offer "id" JNull ;;
  _ <- get offer "title" JNull ;;
  m <- get offer "merchants" (JArr [JObj []]) ;;
  m0 <- getitem0 m ;;
  _ <- get m0 "name" (JStr "N/A") ;;
  m' <- get offer "merchants" (JArr [JObj []]) ;;
  m0' <- getitem0 m' ;;
  _ <- get m0' "category" (JStr "N/A") ;;
  d <- get offer "duration" (JObj []) ;;
  _ <- get d "to" (JStr "N/A") ;;
  _ <- get offer "budget" (JStr "N/A") ;;
  Ok tt.

Fixpoint for_each {A : Type} (f : A -> res unit) (l : list A) : res unit :=
  match l with
  | [] => Ok tt
  | x :: r => _ <- f x ;; for_each f r
  end.

(** A list comprehension with a condition that may raise. *)
Fixpoint filter_res {A : Type} (f : A -> res bool) (l : list A)
  : res (list A) :=
  match l with
  | [] => Ok []
  | x :: r =>
      b <- f x ;;
      r' <- filter_res f r ;;
      Ok (if b then x :: r' else r')
  end.

Definition loads_content `{Runtime} (content : option string) : res json :=
  match content with
  | Some s => json_loads s
  | None => Raise TypeError
  end.

(** [offer.get('id') in result.get('matching_ids', [])]. *)
Definition id_matches (result offer : json) : res bool :=
  i <- get offer "id" JNull ;;
  ids <- get result "matching_ids" (JArr []) ;;
  contains i ids.

Definition filter_try `{Runtime} (m : llm) (offers : json) : res json :=
  _ <- client m ;;
  l <- iter offers ;;
  _ <- for_each offer_summary l ;;
  content <- chat m ;;
  result <- loads_content content ;;
  l' <- iter offers ;;
  kept <- filter_res (id_matches result) l' ;;
  Ok (JArr kept).

Definition filter_offers_with_llm `{Runtime} (m : llm) (prompt : string)
  (offers : json) : json * list ui :=
  match filter_try m offers with
  | Ok kept => (kept, [])
  | Raise e => (offers, [UiError "LLM filtering error: " e])
  end.

(** ** Offer card: days left (lines 117-122)

    The card guards the sentinel before it parses the expiry. *)

Inductive days_left_value : Type :=
| DaysNA
| DaysLeft (n : Z).

Definition no_end_date : string := "No end date".

Definition days_left `{Runtime} (now : Z) (offer : json)
  : res days_left_value :=
  d <- get offer "duration" (JObj []) ;;
  expiry_date <- get d "to" JNull ;;
  if truthy expiry_date && negb (Py.eq expiry_date (JStr no_end_date)) then
    match expiry_date with
    | JStr s =>
        expiry <- strptime s ;;
        Ok (DaysLeft (Z.max 0 (td_days (expiry - now))))
    | _ => Raise TypeError
    end
  else Ok DaysNA.

(** ** Create-offer tab: the Generate Offer handler (lines 185-217) *)

(** [v.copy()]: [dict] and [list] have the method. *)
Definition copy (v : json) : res json :=
  match v with
  | JObj _ | JArr _ => Ok v
  | _ => Raise AttributeError
  end.

Definition generate_offer `{Runtime} (m : llm) (st : session) : outcome :=
  let failed st' e :=
    {| out_state := st';
       out_ui := [UiError "Error generating offer: " e];
       out_ctl := Continue |} in
  match
    (_ <- client m ;;
     content <- chat m ;;
     content' <- Fence.strip_fences content ;;
     json_loads content')
  with
  | Raise e => failed st e
  | Ok params =>
      let st1 := set_offer_params params st in
      match copy (offer_params st1) with
      | Raise e => failed st1 e
      | Ok c =>
          {| out_state := set_offer_created true (set_adjusted_params c st1);
             out_ui := [];
             out_ctl := Rerun |}
      end
  end.

(** ** View-offers tab: handlers (lines 256-286) *)

Definition search_offers `{Runtime} (m : llm) (search_query : string)
  (st : session) : outcome :=
  if truthy (pending_offers st) && negb (String.eqb search_query "") then
    let '(kept, msgs) :=
      filter_offers_with_llm m search_query (pending_offers st) in
    {| out_state := set_filtered kept st; out_ui := msgs;
       out_ctl := Continue |}
  else if negb (truthy (pending_offers st)) then
    {| out_state := st;
       out_ui := [UiWarning "No offers loaded. Refresh first."];
       out_ctl := Continue |}
  else {| out_state := st; out_ui := []; out_ctl := Continue |}.

Definition refresh_offers (w : remote) (st : session) : outcome :=
  let '(st1, msgs, _) := fetch_pending_offers w st in
  {| out_state := set_filtered JNull st1; out_ui := msgs; out_ctl := Rerun |}.

Definition strptime_value `{Runtime} (v : json) : res Z :=
  match v with
  | JStr s => strptime s
  | _ => Raise TypeError
  end.

(** The condition of the Expiring Soon comprehension; [now] is what
    [datetime.now()] returns. *)
Definition expiring_cond `{Runtime} (now : Z) (o : json) : res bool :=
  d <- get o "duration" (JObj []) ;;
  t <- get d "to" JNull ;;
  if truthy t then
    d' <- getitem o "duration" ;;
    t' <- getitem d' "to" ;;
    expiry <- strptime_value t' ;;
    Ok (td_days (expiry - now) <=? 7)%Z
  else Ok false.

(** An assignment whose right-hand side is a comprehension over a
    session value: when the comprehension raises, nothing is assigned and
    nothing catches the exception. *)
Definition assign_filtered (cond : json -> res bool) (st : session)
  : outcome :=
  match (l <- iter (pending_offers st) ;; filter_res cond l) with
  | Ok kept =>
      {| out_state := set_filtered (JArr kept) st; out_ui := [];
         out_ctl := Continue |}
  | Raise e => {| out_state := st; out_ui := []; out_ctl := Uncaught e |}
  end.

Definition expiring_soon `{Runtime} (now : Z) (st : session) : outcome :=
  assign_filtered (expiring_cond now) st.

Definition high_value_cond `{Runtime} (o : json) : res bool :=
  b <- get o "budget" (JInt 0) ;;
  float_gt_50 b.

Definition high_value `{Runtime} (st : session) : outcome :=
  assign_filtered high_value_cond st.

(** ** View-offers tab: what is shown (lines 289-303) *)

Definition offers_to_display (st : session) : json :=
  por (filtered_offers st) (pending_offers st).

(** The key of the sort.  The lambda calls [datetime.strptime] with one
    argument (the closing parenthesis comes before the format string, which
    so becomes the second component of a tuple); the call is a [TypeError]
    whatever the argument is. *)
Definition strptime_one_argument (v : json) : res Z := Raise TypeError.

Definition far_future : string := "9999-12-31".
Definition expiry_format : string := "%Y-%m-%d %H:%M".

Inductive key : Type :=
| KeyTuple (parsed : Z) (fmt : string)
| KeyText (s : string).

Definition sort_key (x : json) : res key :=
  d <- get x "duration" (JObj []) ;;
  t <- get d "to" JNull ;;
  if truthy t then
    d' <- get x "duration" (JObj []) ;;
    t' <- get d' "to" (JStr far_future) ;;
    parsed <- strptime_one_argument t' ;;
    Ok (KeyTuple parsed expiry_format)
  else Ok (KeyText far_future).

(** [a < b] on keys: two tuples, two strings, or a [TypeError]. *)
Definition key_lt (a b : key) : res bool :=
  match a, b with
  | KeyText s, KeyText t => Ok (String.ltb s t)
  | KeyTuple d f, KeyTuple d' f' =>
      Ok ((d <? d')%Z || ((d =? d')%Z && String.ltb f f'))
  | _, _ => Raise TypeError
  end.

Fixpoint map_res {A B : Type} (f : A -> res B) (l : list A) : res (list B) :=
  match l with
  | [] => Ok []
  | x :: r =>
      y <- f x ;;
      r' <- map_res f r ;;
      Ok (y :: r')
  end.

(** [list.sort] is stable and only uses [<]; it is written here as an
    insertion sort: an element goes before the first one whose key is not
    smaller than its own. *)
Fixpoint insert_keyed (kx : key * json) (l : list (key * json))
  : res (list (key * json)) :=
  match l with
  | [] => Ok [kx]
  | ky :: r =>
      b <- key_lt (fst ky) (fst kx) ;;
      if b then r' <- insert_keyed kx r ;; Ok (ky :: r')
      else Ok (kx :: l)
  end.

Fixpoint sort_keyed (l : list (key * json)) : res (list (key * json)) :=
  match l with
  | [] => Ok []
  | kx :: r => r' <- sort_keyed r ;; insert_keyed kx r'
  end.

(** [l.sort(key=...)]: the keys are computed first, one call per
    element. *)
Definition sort_by_expiry (l : list json) : res (list json) :=
  keys <- map_res sort_key l ;;
  sorted <- sort_keyed (combine keys l) ;;
  Ok (map snd sorted).

Definition len (v : json) : res nat :=
  match v with
  | JArr l => Ok (length l)
  | JObj d => Ok (length d)
  | JStr s => Ok (String.length s)
  | _ => Raise TypeError
  end.

Definition sort_in_place (v : json) : res (list json) :=
  match v with
  | JArr l => sort_by_expiry l
  | _ => Raise AttributeError
  end.

Inductive view : Type :=
| Cards (l : list json)
| NoOffers
| ViewRaises (e : exn).

(** The right-hand column, up to the loop that draws one card per
    offer. *)
Definition view_offers (st : session) : view :=
  let shown := offers_to_display st in
  if truthy shown then
    match (_ <- len shown ;; sort_in_place shown) with
    | Ok l => Cards l
    | Raise e => ViewRaises e
    end
  else NoOffers.

(** ** A reference runtime

    Executable stand-ins for the three library functions, used where a
    statement is evaluated on a concrete input.  Each covers a fragment of
    what the Python function accepts and agrees with it there:
    - [Ref.loads]: JSON without escapes in strings and without fractions
      or exponents in numbers, with the three constants NaN, Infinity and
      -Infinity that [json.loads] accepts;
    - [Ref.parse_expiry]: the zero-padded form, four digits for the year
      and two for every other field;
    - [Ref.gt_50]: numbers, and strings that are plain integer numerals
      (digits only). *)

Module Ref.

Definition dq : ascii := "034"%char.

Definition is_ws (c : ascii) : bool :=
  Ascii.eqb c " " || Ascii.eqb c "009" || Ascii.eqb c "010"
  || Ascii.eqb c "013".

Fixpoint skip_ws (s : string) : string :=
  match s with
  | String c t => if is_ws c then skip_ws t else s
  | EmptyString => s
  end.

Definition digit (c : ascii) : option Z :=
  let n := Z.of_nat (nat_of_ascii c) in
  if ((48 <=? n) && (n <=? 57))%Z then Some (n - 48)%Z else None.

(** The digits at the start of [s], most significant first. *)
Fixpoint digits (acc : Z) (s : string) : Z * string :=
  match s with
  | String c t =>
      match digit c with
      | Some d => digits (10 * acc + d)%Z t
      | None => (acc, s)
      end
  | EmptyString => (acc, s)
  end.

Definition starts_fraction (s : string) : bool :=
  match s with
  | String c _ => Ascii.eqb c "." || Ascii.eqb c "e" || Ascii.eqb c "E"
  | EmptyString => false
  end.

(** An integer literal without its sign: a lone zero, or digits that do
    not start with zero. *)
Definition natural (s : string) : option (Z * string) :=
  match s with
  | String c t =>
      match digit c with
      | Some 0%Z => if starts_fraction t then None else Some (0%Z, t)
      | Some d =>
          let '(n, rest) := digits d t in
          if starts_fraction rest then None else Some (n, rest)
      | None => None
      end
  | EmptyString => None
  end.

(** The characters of a string literal up to its closing quote. *)
Fixpoint string_body (s : string) : option (string * string) :=
  match s with
  | EmptyString => None
  | String c t =>
      if Ascii.eqb c dq then Some (EmptyString, t)
      else if Ascii.eqb c "092" || (nat_of_ascii c <? 32)%nat then None
      else
        match string_body t with
        | Some (b, rest) => Some (String c b, rest)
        | None => None
        end
  end.

(** [d[k] = v]: a key that is there keeps its place. *)
Fixpoint dict_set (k : string) (v : json) (d : list (string * json))
  : list (string * json) :=
  match d with
  | [] => [(k, v)]
  | (k', v') :: r =>
      if String.eqb k k' then (k, v) :: r else (k', v') :: dict_set k v r
  end.

Section Parser.

Variable value : string -> option (json * string).

(** After an opening bracket and a first check for the empty array. *)
Fixpoint items (n : nat) (s : string) : option (list json * string) :=
  match n with
  | O => None
  | S n' =>
      match value s with
      | None => None
      | Some (v, r) =>
          match skip_ws r with
          | String c r' =>
              if Ascii.eqb c "," then
                match items n' r' with
                | Some (vs, r'') => Some (v :: vs, r'')
                | None => None
                end
              else if Ascii.eqb c "]" then Some ([v], r')
              else None
          | EmptyString => None
          end
      end
  end.

Fixpoint members (n : nat) (acc : list (string * json)) (s : string)
  : option (list (string * json) * string) :=
  match n with
  | O => None
  | S n' =>
      match skip_ws s with
      | String c t =>
          if Ascii.eqb c dq then
            match string_body t with
            | None => None
            | Some (k, r) =>
                match skip_ws r with
                | String c' r' =>
                    if Ascii.eqb c' ":" then
                      match value r' with
                      | None => None
                      | Some (v, r'') =>
                          let acc' := dict_set k v acc in
                          match skip_ws r'' with
                          | String c'' r3 =>
                              if Ascii.eqb c'' "," then members n' acc' r3
                              else if Ascii.eqb c'' "}" then Some (acc', r3)
                              else None
                          | EmptyString => None
                          end
                      end
                    else None
                | EmptyString => None
                end
            end
          else None
      | EmptyString => None
      end
  end.

End Parser.

Fixpoint value (fuel : nat) (s : string) : option (json * string) :=
  match fuel with
  | O => None
  | S fuel' =>
      let s' := skip_ws s in
      match s' with
      | EmptyString => None
      | String c t =>
          if Ascii.eqb c "[" then
            match skip_ws t with
            | String c' r =>
                if Ascii.eqb c' "]" then Some (JArr [], r)
                else
                  match items (value fuel') fuel' t with
                  | Some (vs, r') => Some (JArr vs, r')
                  | None => None
                  end
            | EmptyString => None
            end
          else if Ascii.eqb c "{" then
            match skip_ws t with
            | String c' r =>
                if Ascii.eqb c' "}" then Some (JObj [], r)
                else
                  match members (value fuel') fuel' [] t with
                  | Some (d, r') => Some (JObj d, r')
                  | None => None
                  end
            | EmptyString => None
            end
          else if Ascii.eqb c dq then
            match string_body t with
            | Some (b, r) => Some (JStr b, r)
            | None => None
            end
          else if Ascii.eqb c "-" then
            match drop_prefix "Infinity" t with
            | Some r => Some (JFloat (S754_infinity true), r)
            | None =>
                match natural t with
                | Some (n, r) => Some (JInt (- n), r)
                | None => None
                end
            end
          else
            match drop_prefix "null" s', drop_prefix "true" s',
                  drop_prefix "false" s' with
            | Some r, _, _ => Some (JNull, r)
            | _, Some r, _ => Some (JBool true, r)
            | _, _, Some r => Some (JBool false, r)
            | _, _, _ =>
                match drop_prefix "NaN" s', drop_prefix "Infinity" s' with
                | Some r, _ => Some (JFloat S754_nan, r)
                | _, Some r => Some (JFloat (S754_infinity false), r)
                | _, _ =>
                    match natural s' with
                    | Some (n, r) => Some (JInt n, r)
                    | None => None
                    end
                end
            end
      end
  end.

Definition loads (s : string) : res json :=
  match value (S (String.length s)) s with
  | Some (v, r) =>
      match skip_ws r with
      | EmptyString => Ok v
      | _ => Raise JSONDecodeError
      end
  | None => Raise JSONDecodeError
  end.

(** *** The expiry format *)

Definition is_leap (y : Z) : bool :=
  ((y mod 4 =? 0) && (negb (y mod 100 =? 0) || (y mod 400 =? 0)))%Z.

Definition days_in_month (y m : Z) : Z :=
  if (m =? 2)%Z then (if is_leap y then 29 else 28)%Z
  else if ((m =? 4) || (m =? 6) || (m =? 9) || (m =? 11))%Z then 30%Z
  else 31%Z.

Definition days_before_year (y : Z) : Z :=
  let p := (y - 1)%Z in (p * 365 + p / 4 - p / 100 + p / 400)%Z.

Definition days_before_month (y m : Z) : Z :=
  fold_right Z.add 0%Z
    (map (days_in_month y)
       (filter (fun k => (k <? m)%Z) [1; 2; 3; 4; 5; 6; 7; 8; 9; 10; 11]%Z)).

(** Microseconds from the start of year 1 to the given minute. *)
Definition usec_of (y m d hh mm : Z) : Z :=
  let days := (days_before_year y + days_before_month y m + (d - 1))%Z in
  ((days * 86400 + hh * 3600 + mm * 60) * 1000000)%Z.

Fixpoint fixed_digits (n : nat) (acc : Z) (s : string)
  : option (Z * string) :=
  match n with
  | O => Some (acc, s)
  | S n' =>
      match s with
      | String c t =>
          match digit c with
          | Some d => fixed_digits n' (10 * acc + d)%Z t
          | None => None
          end
      | EmptyString => None
      end
  end.

Definition expect (c : ascii) (s : string) : option string :=
  match s with
  | String c' t => if Ascii.eqb c c' then Some t else None
  | EmptyString => None
  end.

Definition obind {A B : Type} (m : option A) (k : A -> option B) : option B :=
  match m with
  | Some a => k a
  | None => None
  end.

Definition expiry_fields (s : string) : option (Z * Z * Z * Z * Z) :=
  obind (fixed_digits 4 0%Z s) (fun '(y, s1) =>
  obind (expect "-" s1) (fun s2 =>
  obind (fixed_digits 2 0%Z s2) (fun '(m, s3) =>
  obind (expect "-" s3) (fun s4 =>
  obind (fixed_digits 2 0%Z s4) (fun '(d, s5) =>
  obind (expect " " s5) (fun s6 =>
  obind (fixed_digits 2 0%Z s6) (fun '(hh, s7) =>
  obind (expect ":" s7) (fun s8 =>
  obind (fixed_digits 2 0%Z s8) (fun '(mm, s9) =>
  match s9 with
  | EmptyString => Some (y, m, d, hh, mm)
  | _ => None
  end))))))))).

Definition parse_expiry (s : string) : res Z :=
  match expiry_fields s with
  | Some (y, m, d, hh, mm) =>
      if ((1 <=? y) && (1 <=? m) && (m <=? 12) && (1 <=? d)
          && (d <=? days_in_month y m) && (hh <=? 23) && (mm <=? 59))%Z
      then Ok (usec_of y m d hh mm)
      else Raise ValueError
  | None => Raise ValueError
  end.

(** *** [float(v) > 50] *)

(** The smallest natural number that is too large for a double: the
    midpoint between the largest double and two to the power 1024, which
    a tie to even rounds up. *)
Definition double_overflow : Z := (2 ^ 1024 - 2 ^ 970)%Z.

(** [f > 50.0], from the exact value of [f]; NaN is above nothing. *)
Definition double_gt_50 (f : spec_float) : bool :=
  match f with
  | S754_infinity s => negb s
  | S754_finite false m e =>
      if (0 <=? e)%Z then (50 <? Z.pos m * 2 ^ e)%Z
      else (50 * 2 ^ (- e) <? Z.pos m)%Z
  | _ => false
  end.

Definition numeral (s : string) : option Z :=
  match s with
  | String c t =>
      match digit c with
      | Some d =>
          match digits d t with
          | (n, EmptyString) => Some n
          | _ => None
          end
      | None => None
      end
  | EmptyString => None
  end.

Definition gt_50 (v : json) : res bool :=
  match v with
  | JInt n =>
      if (double_overflow <=? Z.abs n)%Z then Raise OverflowError
      else Ok (50 <? n)%Z
  | JBool _ => Ok false
  | JFloat f => Ok (double_gt_50 f)
  | JStr s =>
      match numeral s with
      | Some n => Ok (50 <? n)%Z
      | None => Raise ValueError
      end
  | _ => Raise TypeError
  end.

#[export] Instance runtime : Runtime := {
  json_loads := loads;
  strptime := parse_expiry;
  float_gt_50 := gt_50
}.

End Ref.

(** ** Numbers as text: [format_currency] (lines 28-29)

    [f"${amount:.2f}"].  An [int] or a [bool] is first converted to a
    double (nearest, ties to even; too large is an [OverflowError]); a
    double is written with two decimals, correctly rounded from its exact
    value, ties to even. *)

(** What the arithmetic of the formatter and of the preview raises: the
    [OverflowError] of a conversion to a double or of a date out of range,
    or, under [Base], an exception of the lookups around it. *)
Inductive exn_num : Type :=
| OverflowError
| Base (e : exn).

Inductive nres (A : Type) : Type :=
| NOk (a : A)
| NRaise (e : exn_num).

Arguments NOk {A} a.
Arguments NRaise {A} e.

Definition nbind {A B : Type} (m : nres A) (k : A -> nres B) : nres B :=
  match m with
  | NOk a => k a
  | NRaise e => NRaise e
  end.

Definition lift {A : Type} (m : res A) : nres A :=
  match m with
  | Ok a => NOk a
  | Raise e => NRaise (Base e)
  end.

Notation "x <-- m ;; k" := (nbind m (fun x => k))
  (at level 61, m at next level, right associativity).

Definition decimal (n : Z) : string :=
  DecimalString.NilZero.string_of_uint (N.to_uint (Z.to_N n)).

Definition digit_char (d : Z) : ascii := ascii_of_nat (48 + Z.to_nat d).

(** The quotient of two positive numbers, to the nearest integer, a tie
    to the even one. *)
Definition round_half_even (num den : Z) : Z :=
  let q := (num / den)%Z in
  let r := (num mod den)%Z in
  if ((den <? 2 * r) || ((2 * r =? den) && Z.odd q))%Z then (q + 1)%Z else q.

(** A count of hundredths as text, with the sign in front. *)
Definition fixed2 (negative : bool) (hundredths : Z) : string :=
  ((if negative then "-" else "")
   ++ decimal (hundredths / 100)
   ++ String "." (String (digit_char ((hundredths mod 100) / 10))
                    (String (digit_char (hundredths mod 10)) "")))%string.

Definition format_double_2f (f : spec_float) : string :=
  match f with
  | S754_nan => "nan"
  | S754_infinity s => if s then "-inf" else "inf"
  | S754_zero s => fixed2 s 0
  | S754_finite s m e =>
      fixed2 s
        (if (0 <=? e)%Z then (100 * Z.pos m * 2 ^ e)%Z
         else round_half_even (100 * Z.pos m) (2 ^ (- e)))
  end.

(** The double nearest to a natural number, as a number: 53 significant
    bits are kept. *)
Definition nearest_double (a : Z) : Z :=
  let bits := (Z.log2 a + 1)%Z in
  if (bits <=? 53)%Z then a
  else
    let unit := (2 ^ (bits - 53))%Z in
    (round_half_even a unit * unit)%Z.

(** [format(v, '.2f')]. *)
Definition format_2f (v : json) : nres string :=
  match v with
  | JInt n =>
      let a := nearest_double (Z.abs n) in
      if (2 ^ 1024 <=? a)%Z then NRaise OverflowError
      else NOk (fixed2 (n <? 0)%Z (100 * a))
  | JBool b => NOk (fixed2 false (100 * bool_to_Z b))
  | JFloat f => NOk (format_double_2f f)
  | JStr _ => NRaise (Base ValueError)
  | _ => NRaise (Base TypeError)
  end.

Definition format_currency (amount : json) : nres string :=
  text <-- format_2f amount ;;
  NOk ("$" ++ text)%string.

(** ** Offer card (lines 108-140)

    What the card computes before it draws: the image, the days left and
    the values that go into the text.  Drawing itself ([st.image],
    [st.markdown], the details button) is not part of the model. *)

Definition placeholder_image : string :=
  "https://via.placeholder.com/150?text=No+Image".

(** [offer.get('merchants', [{}])[0]]. *)
Definition first_merchant (offer : json) : res json :=
  ms <- get offer "merchants" (JArr [JObj []]) ;;
  getitem0 ms.

(** The chain of [or]: an operand is evaluated only when those before it
    are falsy. *)
Definition image_url (offer merchant : json) : res json :=
  logo <- get offer "offerLogo" JNull ;;
  if truthy logo then Ok logo
  else
    picture <- get merchant "profilePicture" JNull ;;
    if truthy picture then Ok picture
    else
      category_logo <- get merchant "categoryLogo" JNull ;;
      Ok (por category_logo (JStr placeholder_image)).

(** [s.replace('-', ' ')]. *)
Fixpoint replace_hyphens (s : string) : string :=
  match s with
  | EmptyString => EmptyString
  | String c t =>
      String (if Ascii.eqb c "-" then " "%char else c) (replace_hyphens t)
  end.

Definition is_upper (c : ascii) : bool :=
  ((65 <=? nat_of_ascii c) && (nat_of_ascii c <=? 90))%nat.
Definition is_lower (c : ascii) : bool :=
  ((97 <=? nat_of_ascii c) && (nat_of_ascii c <=? 122))%nat.
Definition to_upper (c : ascii) : ascii :=
  if is_lower c then ascii_of_nat (nat_of_ascii c - 32) else c.
Definition to_lower (c : ascii) : ascii :=
  if is_upper c then ascii_of_nat (nat_of_ascii c + 32) else c.

(** [s.title()] on ASCII text: a letter is made upper case when the
    character before it is not a letter, and lower case when it is.
    Bytes above 127 are left as they are and count as no letter, so the
    function is [str.title] for texts without cased characters outside
    ASCII. *)
Fixpoint title_from (previous_is_cased : bool) (s : string) : string :=
  match s with
  | EmptyString => EmptyString
  | String c t =>
      String (if previous_is_cased then to_lower c else to_upper c)
        (title_from (is_upper c || is_lower c) t)
  end.

Definition title (s : string) : string := title_from false s.

Record card : Type := {
  card_image : json;
  card_title : json;
  card_merchant : json;
  card_category : json;
  card_symbol : json;
  card_budget : json;
  card_days_left : days_left_value;
  card_status : string
}.

Definition offer_card `{Runtime} (now : Z) (offer : json) : res card :=
  merchant <- first_merchant offer ;;
  image <- image_url offer merchant ;;
  left <- days_left now offer ;;
  heading <- get offer "title" (JStr "Untitled Offer") ;;
  name <- get merchant "name" (JStr "N/A") ;;
  category <- get merchant "category" (JStr "N/A") ;;
  currency <- get offer "currency" (JObj []) ;;
  symbol <- get currency "symbol" (JStr "$") ;;
  budget <- get offer "budget" (JStr "N/A") ;;
  status <- get offer "status" (JStr "N/A") ;;
  match status with
  | JStr text =>
      Ok {| card_image := image; card_title := heading;
            card_merchant := name; card_category := category;
            card_symbol := symbol; card_budget := budget;
            card_days_left := left;
            card_status := title (replace_hyphens text) |}
  | _ => Raise AttributeError
  end.

(** The right-hand column with its cards: the loop stops at the first
    card that raises. *)
Inductive page : Type :=
| PageCards (cards : list card)
| PageNoOffers
| PageRaises (e : exn).

Definition view_page `{Runtime} (now : Z) (st : session) : page :=
  match view_offers st with
  | Cards l =>
      match map_res (offer_card now) l with
      | Ok cards => PageCards cards
      | Raise e => PageRaises e
      end
  | NoOffers => PageNoOffers
  | ViewRaises e => PageRaises e
  end.

(** ** Create-offer tab: the preview (lines 220-239) *)

(** [timedelta(days=d)] for a double [d], in microseconds: the library
    splits the number and multiplies in floating point. *)
Class Timedelta : Type := {
  timedelta_double_days : spec_float -> nres Z
}.

Definition max_delta_days : Z := 999999999.

(** [timedelta(days=v)], in microseconds. *)
Definition timedelta_days `{Timedelta} (v : json) : nres Z :=
  match v with
  | JInt n =>
      if (Z.abs n <=? max_delta_days)%Z then NOk (n * usec_per_day)%Z
      else NRaise OverflowError
  | JBool b => NOk (bool_to_Z b * usec_per_day)%Z
  | JFloat f => timedelta_double_days f
  | _ => NRaise (Base TypeError)
  end.

(** The first microsecond after the last day of year 9999. *)
Definition datetime_end : Z := (3652059 * usec_per_day)%Z.

(** [moment + delta]: the result has to be a date of years 1 to 9999. *)
Definition datetime_add (moment delta : Z) : nres Z :=
  let r := (moment + delta)%Z in
  if ((0 <=? r) && (r <? datetime_end))%Z then NOk r
  else NRaise OverflowError.

(** The amount shown: the value with a percent sign behind it, or the
    value as currency. *)
Inductive value_display : Type :=
| Percent (v : json)
| Amount (text : string).

Record preview : Type := {
  preview_name : json;
  preview_value : value_display;
  preview_type : json;
  preview_min_spend : string;
  preview_end : Z;
  preview_max_redemptions : json
}.

Inductive preview_outcome : Type :=
| NoPreview
| Shown (p : preview)
| PreviewRaises (e : exn_num).

Definition preview_body `{Timedelta} (now : Z) (params : json) : nres preview :=
  days <-- lift (get params "duration_days" (JInt 7)) ;;
  delta <-- timedelta_days days ;;
  end_date <-- datetime_add now delta ;;
  value_type <-- lift (get params "value_type" JNull) ;;
  shown <--
    (if Py.eq value_type (JStr "percentage") then
       v <-- lift (getitem params "value") ;; NOk (Percent v)
     else
       v <-- lift (getitem params "value") ;;
       text <-- format_currency v ;;
       NOk (Amount text)) ;;
  name <-- lift (get params "offer_name" (JStr "Special Offer")) ;;
  kind <-- lift (get params "offer_type" JNull) ;;
  min_spend <-- lift (get params "min_spend" (JInt 0)) ;;
  min_text <-- format_currency min_spend ;;
  max_redemptions <-- lift (get params "max_redemptions" (JStr "Unlimited")) ;;
  NOk {| preview_name := name; preview_value := shown; preview_type := kind;
         preview_min_spend := min_text; preview_end := end_date;
         preview_max_redemptions := max_redemptions |}.

Definition offer_preview `{Timedelta} (now : Z) (st : session)
  : preview_outcome :=
  if offer_created st && truthy (adjusted_params st) then
    match preview_body now (adjusted_params st) with
    | NOk p => Shown p
    | NRaise e => PreviewRaises e
    end
  else NoPreview.

(** A stand-in for the one library function of the preview.  The
    library takes the whole days as they are, multiplies the fraction of
    a day by the microseconds of a day in double arithmetic (one
    rounding), and rounds the sum to a whole microsecond, a tie to the
    even one; NaN is a [ValueError], an infinity or more than
    [max_delta_days] days an [OverflowError]. *)
Module RefTime.

Definition double_days (f : spec_float) : nres Z :=
  match f with
  | S754_zero _ => NOk 0%Z
  | S754_nan => NRaise (Base ValueError)
  | S754_infinity _ => NRaise OverflowError
  | S754_finite s m e =>
      let magnitude :=
        if (0 <=? e)%Z then (Z.pos m * 2 ^ e * usec_per_day)%Z
        else
          let den := (2 ^ (- e))%Z in
          let whole := (Z.pos m / den)%Z in
          let fraction := (Z.pos m mod den)%Z in
          let product := nearest_double (usec_per_day * fraction) in
          round_half_even (whole * usec_per_day * den + product) den in
      let microseconds := if s then (- magnitude)%Z else magnitude in
      if (Z.abs (microseconds / usec_per_day) <=? max_delta_days)%Z
      then NOk microseconds
      else NRaise OverflowError
  end.

#[export] Instance timedelta : Timedelta := {
  timedelta_double_days := double_days
}.

End RefTime.

(** ** One run of the script per user action *)

Inductive action : Type :=
| Generate (m : llm)
| Search (m : llm) (search_query : string)
| Refresh (w : remote)
| ExpiringSoon (now : Z)
| HighValue.

Definition handle `{Runtime} (a : action) (st : session) : outcome :=
  match a with
  | Generate m => generate_offer m st
  | Search m search_query => search_offers m search_query st
  | Refresh w => refresh_offers w st
  | ExpiringSoon now => expiring_soon now st
  | HighValue => high_value st
  end.

(** The sessions the page can be in, from the first run on. *)
Inductive reachable `{Runtime} (c : credentials) : session -> Prop :=
| reachable_initial : reachable c (initial_session c)
| reachable_action (a : action) (st : session) :
    reachable c st -> reachable c (out_state (handle a st)).

(** ** Sample inputs *)

Definition quoted (s : string) : string :=
  String Ref.dq (s ++ String Ref.dq "").

(** A reply whose only member is the list NaN, 3 under matching_ids. *)
Definition reply_nan_3 : string :=
  "{" ++ quoted "matching_ids" ++ ": [NaN, 3]}".

(** Three offers, the first with NaN for its id. *)
Definition offers_with_nan : json :=
  JArr [JObj [("id", JFloat S754_nan)]; JObj [("id", JInt 2)];
        JObj [("id", JInt 3)]].

(** A reply whose only member is the list 1, 3 under matching_ids. *)
Definition reply_1_3 : string := "{" ++ quoted "matching_ids" ++ ": [1, 3]}".

Definition three_offers : json :=
  JArr [JObj [("id", JInt 1)]; JObj [("id", JInt 2)]; JObj [("id", JInt 3)]].

Definition offer_expiring (i : Z) (expiry : string) : json :=
  JObj [("id", JInt i); ("duration", JObj [("to", JStr expiry)])].

Definition no_credentials : credentials :=
  {| email := ""; password := ""; app := "lms" |}.

Definition one_offer : json := JArr [JObj [("id", JInt 1)]].

(** An offer that never expires, as the marketplace sends it. *)
Definition sentinel_offer : json :=
  JObj [("id", JInt 1); ("duration", JObj [("to", JStr no_end_date)])].

Definition dated_offer : json :=
  JObj [("id", JInt 2); ("duration", JObj [("to", JStr "2025-01-01 10:00")])].

(** A marketplace that refuses the login. *)
Definition login_refused : remote :=
  {| post_login := fun _ _ _ =>
       Ok {| ok := false; status_code := 401; body := Ok (JObj []) |};
     get_pending := fun _ _ => Raise RequestException |}.

(** A marketplace that accepts the login and lists one offer. *)
Definition one_offer_listed : remote :=
  {| post_login := fun _ _ _ =>
       Ok {| ok := true; status_code := 200;
             body :=
               Ok (JObj [("data",
                     JObj [("auth",
                       JArr [JObj [("permissionToken", JStr "p");
                                   ("authToken", JStr "a")]])])]) |};
     get_pending := fun _ _ =>
       Ok {| ok := true; status_code := 200;
             body := Ok (JObj [("offers", one_offer)]) |} |}.

(** A reply with an offer type and nothing else. *)
Definition reply_no_value : string :=
  "{" ++ quoted "offer_type" ++ ": " ++ quoted "cashback" ++ "}".

(** An offer without expiry, with one merchant. *)
Definition undated_offer : json :=
  JObj [("id", JInt 7); ("title", JStr "Coffee");
        ("merchants", JArr [JObj [("name", JStr "Bean")]]);
        ("status", JStr "pending-review")].

(** A marketplace that accepts the login and answers the listing with a
    bare list of offers instead of an object. *)
Definition listing_is_a_list : remote :=
  {| post_login := post_login one_offer_listed;
     get_pending := fun _ _ =>
       Ok {| ok := true; status_code := 200; body := Ok three_offers |} |}.

(** ** Notions used in the statements *)

(** [l1] is [l2] with some elements left out, the others in their
    order. *)
Inductive subseq {A : Type} : list A -> list A -> Prop :=
| subseq_nil : subseq [] []
| subseq_skip (x : A) (l1 l2 : list A) : subseq l1 l2 -> subseq l1 (x :: l2)
| subseq_keep (x : A) (l1 l2 : list A) :
    subseq l1 l2 -> subseq (x :: l1) (x :: l2).

(** The filtered collection is unset, or the base collection itself, or
    a list that keeps some elements of the base collection in their
    order. *)
Definition filtered_from_base (st : session) : Prop :=
  filtered_offers st = JNull \/
  filtered_offers st = pending_offers st \/
  exists l l',
    iter (pending_offers st) = Ok l /\
    filtered_offers st = JArr l' /\ subseq l' l.

(** [offer.get('id')]. *)
Definition offer_id (offer : json) : res json := get offer "id" JNull.

(** The messages of the three [except] clauses. *)
Definition fetch_error (e : exn) : ui := UiError "Failed to fetch offers: " e.
Definition filter_error (e : exn) : ui := UiError "LLM filtering error: " e.
Definition generate_error (e : exn) : ui :=
  UiError "Error generating offer: " e.

(** The last character of a text. *)
Fixpoint last_char (s : string) : option ascii :=
  match s with
  | EmptyString => None
  | String c EmptyString => Some c
  | String _ t => last_char t
  end.

(** The text starts with no newline and ends with neither a newline nor
    a backquote. *)
Definition plain_ends (s : string) : bool :=
  match s with
  | String c _ => negb (Ascii.eqb c Fence.nl)
  | EmptyString => true
  end &&
  match last_char s with
  | Some c => negb (Ascii.eqb c Fence.nl) && negb (Ascii.eqb c "`")
  | None => true
  end.

(** The character occurs in the text. *)
Fixpoint mentions (c : ascii) (s : string) : bool :=
  match s with
  | EmptyString => false
  | String c' t => Ascii.eqb c c' || mentions c t
  end.

(** The budget of an offer when it is an [int]; an offer without budget
    counts as zero, as in [o.get('budget', 0)]. *)
Definition int_budget (o : json) : option Z :=
  match o with
  | JObj d =>
      match lookup "budget" d with
      | Some (JInt n) => Some n
      | None => Some 0%Z
      | _ => None
      end
  | _ => None
  end.

(** A [dict] or a [list]. *)
Definition is_container (v : json) : bool :=
  match v with
  | JObj _ | JArr _ => true
  | _ => false
  end.

(** The draft is either absent and not marked created, or marked created
    and a [dict] or a [list]. *)
Definition draft_consistent (st : session) : Prop :=
  if offer_created st then is_container (adjusted_params st) = true
  else adjusted_params st = JNull.

(** The offer is selected by the list of ids: its id is in the list, as
    [in] has it. *)
Definition id_listed (ids : list json) (o : json) : bool :=
  match offer_id o with
  | Ok i => existsb (same_or_eq i) ids
  | Raise _ => false
  end.

(** * Properties *)

Local Open Scope string_scope.

(** ** Strings *)

Section StringFacts.

Lemma append_empty_r (s : string) : s ++ "" = s.
Proof. induction s as [|c s IH]; simpl; [reflexivity | now rewrite IH]. Qed.

Lemma append_assoc' (a b c : string) : (a ++ b) ++ c = a ++ (b ++ c).
Proof. induction a as [|x a IH]; simpl; [reflexivity | now rewrite IH]. Qed.

Lemma length_drop_prefix (p s r : string) :
  drop_prefix p s = Some r ->
  String.length s = (String.length p + String.length r)%nat.
Proof.
  revert s; induction p as [|a p IH]; intros s H; simpl in *.
  - now inversion H.
  - destruct s as [|b s]; [discriminate|].
    destruct (Ascii.eqb a b); [|discriminate].
    simpl. now rewrite (IH _ H).
Qed.

(** A longer pattern with the shorter one as its start is found only
    where the shorter one is. *)
Lemma drop_prefix_app (p p' s : string) :
  drop_prefix p s = None -> drop_prefix (p ++ p') s = None.
Proof.
  revert s; induction p as [|a p IH]; intros s H; simpl in *.
  - discriminate.
  - destruct s as [|b s]; [reflexivity|].
    destruct (Ascii.eqb a b); [now apply IH | reflexivity].
Qed.

Lemma occurs_app_pattern (p p' s : string) :
  occurs p s = false -> occurs (p ++ p') s = false.
Proof.
  induction s as [|c s IH]; intros H.
  - simpl in *. destruct (drop_prefix p "") eqn:E; [discriminate|].
    now rewrite (drop_prefix_app p p' "" E).
  - simpl in H. simpl.
    destruct (drop_prefix p (String c s)) eqn:E; [discriminate|].
    rewrite (drop_prefix_app p p' _ E). now apply IH.
Qed.

Lemma occurs_tail (p : string) (c : ascii) (s : string) :
  occurs p (String c s) = false -> occurs p s = false.
Proof.
  simpl. destruct (drop_prefix p (String c s)); [discriminate | trivial].
Qed.

Lemma occurs_head (p : string) (s : string) :
  occurs p s = false -> drop_prefix p s = None.
Proof.
  destruct s; simpl; destruct (drop_prefix p _); trivial; discriminate.
Qed.

End StringFacts.

(** ** The code-fence substitution *)

Section FenceFacts.

Import Fence.

Lemma closing_shorter (s r : string) :
  closing s = Some r -> (String.length r + 3 <= String.length s)%nat.
Proof.
  unfold closing. intros H.
  assert (D : forall u, drop_prefix fence u = Some r ->
                        String.length u = (3 + String.length r)%nat)
    by (intros u Hu; apply (length_drop_prefix fence u Hu)).
  destruct s as [|c t].
  - apply D in H. simpl in H. lia.
  - destruct (Ascii.eqb c nl).
    + destruct (drop_prefix fence t) as [r'|] eqn:E.
      * inversion H; subst r'. apply D in E. simpl. lia.
      * apply D in H. lia.
    + apply D in H. lia.
Qed.

Lemma lazy_body_eq (s : string) :
  lazy_body s =
  match closing s with
  | Some rest => Some (EmptyString, rest)
  | None =>
      match s with
      | EmptyString => None
      | String c t =>
          match lazy_body t with
          | Some (g, rest) => Some (String c g, rest)
          | None => None
          end
      end
  end.
Proof. destruct s; reflexivity. Qed.

Lemma lazy_body_shorter (s g r : string) :
  lazy_body s = Some (g, r) -> (String.length r + 3 <= String.length s)%nat.
Proof.
  revert g r; induction s as [|c t IH]; intros g r H;
    rewrite lazy_body_eq in H.
  - discriminate.
  - destruct (closing (String c t)) as [r'|] eqn:E.
    + inversion H; subst. now apply closing_shorter.
    + destruct (lazy_body t) as [[g' r']|]; [|discriminate].
      inversion H; subst. specialize (IH _ _ eq_refl). simpl. lia.
Qed.

Lemma match_at_shorter (s g r : string) :
  match_at s = Some (g, r) -> (String.length r < String.length s)%nat.
Proof.
  unfold match_at. intros H.
  destruct (drop_prefix fence_json s) as [u|] eqn:E; [|discriminate].
  apply length_drop_prefix in E. simpl in E.
  assert (L : forall v, lazy_body v = Some (g, r) ->
                        (String.length r + 3 <= String.length v)%nat)
    by (intros v; apply lazy_body_shorter).
  destruct u as [|c t].
  - apply L in H. simpl in H. lia.
  - destruct (Ascii.eqb c nl).
    + destruct (lazy_body t) as [m|] eqn:E'.
      * inversion H; subst m. apply L in E'. simpl in E. lia.
      * apply L in H. lia.
    + apply L in H. lia.
Qed.

(** The fuel of [re_sub] is never the reason the scan stops. *)
Lemma re_sub_fuel_stable (n : nat) :
  forall (m : nat) (s : string),
    (String.length s <= n)%nat -> (String.length s <= m)%nat ->
    re_sub_fuel n s = re_sub_fuel m s.
Proof.
  induction n as [|n IH]; intros m s Hn Hm.
  - destruct s; [|simpl in Hn; lia]. destruct m; reflexivity.
  - destruct m as [|m].
    + destruct s; [|simpl in Hm; lia]. reflexivity.
    + simpl. destruct (match_at s) as [[g r]|] eqn:E.
      * apply match_at_shorter in E. f_equal. apply IH; lia.
      * destruct s as [|c t]; [reflexivity|].
        simpl in Hn, Hm. f_equal. apply IH; lia.
Qed.

Lemma re_sub_fuel_enough (n : nat) (s : string) :
  (String.length s <= n)%nat -> re_sub_fuel n s = re_sub s.
Proof. intros H. unfold re_sub. apply re_sub_fuel_stable; lia. Qed.

(** The scan, one step at a time. *)
Lemma re_sub_step (s : string) :
  re_sub s =
  match match_at s with
  | Some (g, rest) => g ++ re_sub rest
  | None =>
      match s with
      | EmptyString => EmptyString
      | String c t => String c (re_sub t)
      end
  end.
Proof.
  unfold re_sub at 1. destruct s as [|c t].
  - reflexivity.
  - cbn [String.length re_sub_fuel].
    destruct (match_at (String c t)) as [[g r]|] eqn:E.
    + apply match_at_shorter in E. simpl in E.
      rewrite re_sub_fuel_enough by lia. reflexivity.
    + reflexivity.
Qed.

Lemma match_at_needs_opening (s : string) :
  drop_prefix fence_json s = None -> match_at s = None.
Proof. unfold match_at. now intros ->. Qed.

(** Without the labelled opening anywhere, nothing is replaced. *)
Lemma re_sub_no_opening (s : string) :
  occurs fence_json s = false -> re_sub s = s.
Proof.
  induction s as [|c t IH]; intros H.
  - reflexivity.
  - rewrite re_sub_step.
    rewrite (match_at_needs_opening _ (occurs_head _ _ H)).
    f_equal. apply IH. exact (occurs_tail _ _ _ H).
Qed.

Lemma drop_prefix_append (p s : string) : drop_prefix p (p ++ s) = Some s.
Proof.
  induction p as [|a p IH]; simpl; [reflexivity|].
  now rewrite Ascii.eqb_refl.
Qed.

(** Three backquotes cannot straddle the end of a text that has none and
    the newline that follows it. *)
Lemma no_fence_before_newline (u w : string) :
  occurs fence u = false -> drop_prefix fence (u ++ String nl w) = None.
Proof.
  intros H. apply occurs_head in H. unfold fence, nl in *.
  destruct u as [|a [|b [|c u]]]; cbn [append drop_prefix] in *;
    repeat match goal with
           | |- context [Ascii.eqb ?x ?y] =>
               is_var y; destruct (Ascii.eqb x y)
           end; try reflexivity; try discriminate.
Qed.

Lemma closing_no_fence (c : ascii) (t w : string) :
  occurs fence (String c t) = false ->
  closing (String c t ++ String nl w) = None.
Proof.
  intros H. unfold closing. cbn [append].
  pose proof (no_fence_before_newline (String c t) w H) as H1.
  cbn [append] in H1.
  destruct (Ascii.eqb c nl); [|exact H1].
  now rewrite (no_fence_before_newline t w (occurs_tail _ _ _ H)).
Qed.

Lemma lazy_body_inner (inner w : string) :
  occurs fence inner = false ->
  lazy_body (inner ++ String nl (fence ++ w)) = Some (inner, w).
Proof.
  induction inner as [|c t IH]; intros H.
  - reflexivity.
  - rewrite lazy_body_eq, (closing_no_fence c t _ H).
    cbn [append]. now rewrite (IH (occurs_tail _ _ _ H)).
Qed.

Lemma match_at_labelled (inner w : string) :
  occurs fence inner = false ->
  match_at (fence_json ++ String nl (inner ++ String nl (fence ++ w)))
  = Some (inner, w).
Proof.
  intros H. unfold match_at. rewrite drop_prefix_append.
  rewrite Ascii.eqb_refl. now rewrite lazy_body_inner.
Qed.

Lemma no_opening_in_unlabelled_tail (inner : string) :
  occurs fence inner = false ->
  occurs fence_json (inner ++ String nl fence) = false.
Proof.
  induction inner as [|c t IH]; intros H.
  - reflexivity.
  - change (occurs fence_json (String c t ++ String nl fence))
      with (match drop_prefix fence_json (String c t ++ String nl fence) with
            | Some _ => true
            | None => occurs fence_json (t ++ String nl fence)
            end).
    change fence_json with (fence ++ "json") at 1.
    rewrite (drop_prefix_app fence "json" _
               (no_fence_before_newline (String c t) fence H)).
    apply IH. exact (occurs_tail _ _ _ H).
Qed.

(** The same for a text followed at once by the closing, when the text
    does not end with a backquote. *)
Lemma no_fence_before_closing (u w : string) :
  occurs fence u = false ->
  (forall c, last_char u = Some c -> Ascii.eqb c "`" = false) ->
  u <> "" ->
  drop_prefix fence (u ++ fence ++ w) = None.
Proof.
  intros H L N. apply occurs_head in H. unfold fence in *.
  destruct u as [|a [|b [|c u]]]; [congruence| | |].
  - specialize (L a eq_refl). cbn [append drop_prefix].
    rewrite Ascii.eqb_sym, L. reflexivity.
  - specialize (L b eq_refl). cbn [append drop_prefix].
    rewrite (Ascii.eqb_sym _ b), L. now destruct (Ascii.eqb _ a).
  - cbn [append drop_prefix] in *.
    repeat match goal with
           | |- context [Ascii.eqb ?x ?y] =>
               is_var y; destruct (Ascii.eqb x y)
           end; try reflexivity; discriminate.
Qed.

Lemma last_char_tail (c : ascii) (t : string) :
  t <> "" -> last_char (String c t) = last_char t.
Proof. destruct t; [congruence | reflexivity]. Qed.

Lemma lazy_body_compact (inner w : string) :
  occurs fence inner = false ->
  (forall c, last_char inner = Some c ->
             Ascii.eqb c nl = false /\ Ascii.eqb c "`" = false) ->
  lazy_body (inner ++ fence ++ w) = Some (inner, w).
Proof.
  induction inner as [|c t IH]; intros H L.
  - reflexivity.
  - assert (Lt : forall x, last_char t = Some x ->
                     Ascii.eqb x nl = false /\ Ascii.eqb x "`" = false).
    { intros x Hx. apply L. destruct t; [discriminate|].
      now rewrite last_char_tail. }
    assert (C : closing (String c t ++ fence ++ w) = None).
    { unfold closing. cbn [append].
      assert (D : drop_prefix fence (String c (t ++ fence ++ w)) = None).
      { apply (no_fence_before_closing (u := String c t) w H); [|discriminate].
        intros x Hx. now apply L. }
      destruct (Ascii.eqb c nl) eqn:E; [|exact D].
      destruct t as [|c' t'].
      - destruct (L c eq_refl) as [L1 _]. congruence.
      - rewrite (no_fence_before_closing (u := String c' t') w
                   (occurs_tail _ _ _ H)); [exact D| |discriminate].
        intros x Hx. now apply Lt. }
    rewrite lazy_body_eq, C. cbn [append].
    now rewrite (IH (occurs_tail _ _ _ H) Lt).
Qed.

End FenceFacts.

(** C9.  Stripping leaves a text without fence markup as it is: for every
    string in which three backquotes in a row do not occur, the
    substitution returns the string unchanged. *)
Theorem strip_unfenced_unchanged (s : string) :
  occurs Fence.fence s = false -> Fence.re_sub s = s.
Proof.
  intros H. apply re_sub_no_opening.
  change Fence.fence_json with (Fence.fence ++ "json").
  now apply occurs_app_pattern.
Qed.

Lemma strip_unfenced_unchanged_witness :
  occurs Fence.fence "{}" = false /\ Fence.re_sub "{}" = "{}".
Proof.
  split; [reflexivity|].
  apply (strip_unfenced_unchanged "{}"). reflexivity.
Defined.

(** On a text that does carry fence markup the substitution is not
    idempotent: what the first pass leaves can be a labelled fence
    again. *)
Remark strip_twice_differs :
  let s := "`````json`json{}``````" in
  Fence.re_sub s = "```json{}```" /\ Fence.re_sub (Fence.re_sub s) = "{}".
Proof. split; reflexivity. Qed.

(** C3, as the code has it.  A block opened by three backquotes and the
    label json, a newline, the content, a newline and three backquotes is
    replaced by its content, character for character, whenever the
    content has no three backquotes in a row; the same block without the
    label is left as it is, markers included. *)
Theorem strip_labelled_only (inner : string) :
  occurs Fence.fence inner = false ->
  Fence.re_sub
    (Fence.fence_json ++ String Fence.nl (inner ++ String Fence.nl Fence.fence))
  = inner
  /\
  Fence.re_sub
    (Fence.fence ++ String Fence.nl (inner ++ String Fence.nl Fence.fence))
  = Fence.fence ++ String Fence.nl (inner ++ String Fence.nl Fence.fence).
Proof.
  intros H. split.
  - rewrite re_sub_step.
    change Fence.fence with (Fence.fence ++ "") at 1.
    rewrite (match_at_labelled inner "" H).
    change (Fence.re_sub "") with "". apply append_empty_r.
  - apply re_sub_no_opening.
    pose proof (no_opening_in_unlabelled_tail inner H) as T.
    unfold Fence.fence at 1. cbn [append].
    unfold occurs; fold occurs. cbn [drop_prefix Fence.fence_json].
    unfold Fence.nl at 1 2 3 4. cbn [Ascii.eqb Bool.eqb].
    exact T.
Qed.

Lemma strip_labelled_only_witness :
  occurs Fence.fence "{}" = false /\
  Fence.re_sub
    (Fence.fence_json ++ String Fence.nl ("{}" ++ String Fence.nl Fence.fence))
  = "{}".
Proof.
  split; [reflexivity|].
  apply (strip_labelled_only "{}"). reflexivity.
Defined.

(** X4.  The labelled block written without the two newlines is replaced
    by its content as well, when the content has no three backquotes in a
    row, starts with no newline and ends with neither a newline nor a
    backquote. *)
Lemma strip_labelled_compact (inner : string) :
  occurs Fence.fence inner = false ->
  plain_ends inner = true ->
  Fence.re_sub (Fence.fence_json ++ inner ++ Fence.fence) = inner.
Proof.
  intros H P. unfold plain_ends in P. apply andb_prop in P as [P1 P2].
  assert (L : forall c, last_char inner = Some c ->
                Ascii.eqb c Fence.nl = false /\ Ascii.eqb c "`" = false).
  { intros c Hc. rewrite Hc in P2. apply andb_prop in P2 as [A B].
    split; now apply negb_true_iff. }
  pose proof (lazy_body_compact inner "" H L) as B.
  rewrite re_sub_step. unfold Fence.match_at.
  rewrite drop_prefix_append.
  change (Fence.fence ++ "") with Fence.fence in B.
  destruct inner as [|c t].
  - cbn. reflexivity.
  - cbn [append] in B |- *. apply negb_true_iff in P1. rewrite P1, B.
    change (Fence.re_sub "") with "". apply append_empty_r.
Qed.

(** C3, as stated, fails on the unlabelled variant: the fence markers stay
    and the result is not the inner content. *)
Lemma strip_unlabelled_counterexample :
  let fenced :=
    Fence.fence ++ String Fence.nl ("{}" ++ String Fence.nl Fence.fence) in
  Fence.re_sub fenced = fenced /\ Fence.re_sub fenced <> "{}".
Proof. split; [reflexivity | discriminate]. Qed.

(** ** The offer filter *)

Section FilterFacts.

Context `{rt : Runtime}.

Lemma subseq_refl {A : Type} (l : list A) : subseq l l.
Proof. induction l; constructor; assumption. Qed.

Lemma subseq_In {A : Type} (l1 l2 : list A) :
  subseq l1 l2 -> forall x, In x l1 -> In x l2.
Proof.
  induction 1 as [|y l1 l2 _ IH|y l1 l2 _ IH]; intros x Hx.
  - exact Hx.
  - right. now apply IH.
  - destruct Hx as [->|Hx]; [now left | right; now apply IH].
Qed.

(** A comprehension that returns keeps a subsequence. *)
Lemma filter_res_subseq {A : Type} (f : A -> res bool) (l l' : list A) :
  filter_res f l = Ok l' -> subseq l' l.
Proof.
  revert l'; induction l as [|x r IH]; intros l' H; simpl in H.
  - inversion H. constructor.
  - destruct (f x) as [b|]; [|discriminate]. simpl in H.
    destruct (filter_res f r) as [r'|]; [|discriminate]. simpl in H.
    inversion H; subst. destruct b; constructor; now apply IH.
Qed.

Lemma filter_try_list (m : llm) (l : list json) (kept : json) :
  filter_try m (JArr l) = Ok kept ->
  exists l', kept = JArr l' /\ subseq l' l.
Proof.
  unfold filter_try. intros H.
  destruct (client m); [|discriminate]. cbn [bind iter] in H.
  destruct (for_each offer_summary l); [|discriminate]. cbn [bind] in H.
  destruct (chat m) as [content|]; [|discriminate]. cbn [bind] in H.
  destruct (loads_content content) as [result|]; [|discriminate].
  cbn [bind] in H.
  destruct (filter_res (id_matches result) l) as [l'|] eqn:E;
    [|discriminate].
  inversion H; subst. exists l'. split; [reflexivity|].
  exact (filter_res_subseq _ _ E).
Qed.

(** When the client, the request or the parse raises, so does the body of
    the [try]. *)
Lemma filter_try_raises (m : llm) (offers : json) :
  (exists e, client m = Raise e) \/
  (exists e, chat m = Raise e) \/
  (exists e content, chat m = Ok content /\ loads_content content = Raise e) ->
  exists e, filter_try m offers = Raise e.
Proof.
  unfold filter_try. intros H.
  destruct (client m) as [[]|e0] eqn:C; [|now exists e0].
  cbn [bind]. destruct (iter offers) as [l|e1]; [|now exists e1].
  cbn [bind]. destruct (for_each offer_summary l) as [[]|e2]; [|now exists e2].
  cbn [bind].
  destruct H as [[e H]|[[e H]|[e [content [H1 H2]]]]].
  - discriminate.
  - rewrite H. now exists e.
  - rewrite H1. cbn [bind]. rewrite H2. now exists e.
Qed.

(** An offer whose summary line can be built is a [dict]. *)
Lemma offer_summary_dict (o : json) :
  offer_summary o = Ok tt -> exists d, o = JObj d.
Proof.
  destruct o; try discriminate. intros _. now eexists.
Qed.

(** A reply without the field selects nothing: the default of the lookup
    is the empty list. *)
Lemma filter_res_no_field (d : list (string * json)) (l : list json) :
  lookup "matching_ids" d = None ->
  for_each offer_summary l = Ok tt ->
  filter_res (id_matches (JObj d)) l = Ok [].
Proof.
  intros Hd. induction l as [|o r IH]; intros H; simpl in *.
  - reflexivity.
  - destruct (offer_summary o) as [[]|] eqn:E; [|discriminate].
    cbn [bind] in H. destruct (offer_summary_dict _ E) as [od ->].
    unfold id_matches at 1. cbn [get bind]. rewrite Hd. cbn [contains existsb bind].
    now rewrite (IH H).
Qed.

End FilterFacts.

(** C2.  Whatever the model answers, what the filter returns for a list
    of offers is a list that keeps some of the offers in their order, and
    the id of every returned offer is the id of an offer of the input. *)
Theorem filter_returns_subsequence `{rt : Runtime} (m : llm) (prompt : string)
  (l : list json) :
  exists l',
    fst (filter_offers_with_llm m prompt (JArr l)) = JArr l' /\
    subseq l' l /\
    Forall (fun o => In (offer_id o) (map offer_id l)) l'.
Proof.
  assert (K : forall l', subseq l' l ->
              Forall (fun o => In (offer_id o) (map offer_id l)) l').
  { intros l' S. apply Forall_forall. intros o Ho.
    apply in_map. exact (subseq_In S o Ho). }
  unfold filter_offers_with_llm.
  destruct (filter_try m (JArr l)) as [kept|e] eqn:E.
  - destruct (filter_try_list _ _ E) as [l' [-> S]].
    exists l'. auto.
  - exists l. split; [reflexivity|]. split; [apply subseq_refl|].
    apply K, subseq_refl.
Qed.

(** C1, as the code has it.  When building the client or the request
    raises, when the reply has no content, or when the content is not
    JSON, the filter returns the offers it was given, the same value, and
    puts one error message on the page. *)
Theorem filter_fails_open `{rt : Runtime} (m : llm) (prompt : string)
  (offers : json) :
  (exists e, client m = Raise e) \/
  (exists e, chat m = Raise e) \/
  chat m = Ok None \/
  (exists s e, chat m = Ok (Some s) /\ json_loads s = Raise e) ->
  exists e,
    filter_offers_with_llm m prompt offers
    = (offers, [filter_error e]).
Proof.
  intros H. unfold filter_offers_with_llm.
  destruct (filter_try_raises m offers) as [e E].
  - destruct H as [H|[H|[H|[s [e [H1 H2]]]]]]; auto.
    + right; right. exists TypeError, None. auto.
    + right; right. exists e, (Some s). auto.
  - rewrite E. now exists e.
Qed.

Lemma filter_fails_open_witness :
  let m := {| client := Ok tt; chat := Ok (Some "not json") |} in
  (exists s e, chat m = Ok (Some s) /\
               json_loads (Runtime := Ref.runtime) s = Raise e) /\
  exists e,
    filter_offers_with_llm (H := Ref.runtime) m "food" one_offer
    = (one_offer, [filter_error e]).
Proof.
  intros m.
  assert (P : exists s e, chat m = Ok (Some s) /\
                          json_loads (Runtime := Ref.runtime) s = Raise e)
    by (exists "not json", JSONDecodeError; split; reflexivity).
  split; [exact P|].
  apply (filter_fails_open (rt := Ref.runtime) m "food" one_offer).
  right; right; right. exact P.
Defined.

(** C1, as stated, fails for a missing field: a reply that is a JSON
    object without the list of ids removes every offer and reports
    nothing. *)
Lemma filter_missing_field_counterexample :
  let m := {| client := Ok tt; chat := Ok (Some "{}") |} in
  filter_offers_with_llm (H := Ref.runtime) m "food" one_offer = (JArr [], [])
  /\ JArr [] <> one_offer.
Proof. split; [reflexivity | discriminate]. Qed.

(** The same on every input: offers whose summary lines can be built and
    a reply that parses to an object without the field. *)
Lemma filter_missing_field_selects_nothing `{rt : Runtime} (m : llm)
  (prompt s : string) (l : list json) (d : list (string * json)) :
  client m = Ok tt ->
  for_each offer_summary l = Ok tt ->
  chat m = Ok (Some s) ->
  json_loads s = Ok (JObj d) ->
  lookup "matching_ids" d = None ->
  filter_offers_with_llm m prompt (JArr l) = (JArr [], []).
Proof.
  intros C S R P D. unfold filter_offers_with_llm, filter_try.
  rewrite C. cbn [bind iter]. rewrite S. cbn [bind]. rewrite R.
  cbn [bind loads_content]. rewrite P. cbn [bind].
  now rewrite (filter_res_no_field d l D S).
Qed.

(** ** The marketplace client *)

(** C6, as the code has it.  In the composite fetch, a failure of the
    authentication or of the listing is caught: one error message,
    nothing returned and the session as it was, so the offers held before
    are still held.  The same happens when both return and the listing is
    not a JSON object.  When both return and the listing is a JSON
    object, the held offers become its offers member (the empty list
    when it has none), the listing is returned, nothing is put on the
    page and every other field of the session is as it was. *)
Theorem fetch_pending_offers_outcomes (w : remote) (st : session) :
  let c := lms_credentials st in
  let auth := authenticate_user w (email c) (password c) (app c) in
  (forall e, auth = Raise e ->
     fetch_pending_offers w st = (st, [fetch_error e], None)) /\
  (forall t e, auth = Ok t ->
     get_pending_offers w (fst t) (snd t) = Raise e ->
     fetch_pending_offers w st = (st, [fetch_error e], None)) /\
  (forall t listing, auth = Ok t ->
     get_pending_offers w (fst t) (snd t) = Ok listing ->
     (forall d, listing <> JObj d) ->
     fetch_pending_offers w st = (st, [fetch_error AttributeError], None)) /\
  (forall t d, auth = Ok t ->
     get_pending_offers w (fst t) (snd t) = Ok (JObj d) ->
     exists st',
       fetch_pending_offers w st = (st', [], Some (JObj d)) /\
       pending_offers st'
       = match lookup "offers" d with Some v => v | None => JArr [] end /\
       filtered_offers st' = filtered_offers st /\
       offer_params st' = offer_params st /\
       offer_created st' = offer_created st /\
       adjusted_params st' = adjusted_params st /\
       lms_credentials st' = lms_credentials st).
Proof.
  intros c auth. unfold fetch_pending_offers, fetch_try.
  fold c. fold auth. repeat split.
  - intros e ->. reflexivity.
  - intros t e -> G. cbn [bind]. rewrite G. reflexivity.
  - intros t listing -> G N. cbn [bind]. rewrite G. cbn [bind].
    destruct listing; try reflexivity. now destruct (N d).
  - intros t d -> G. cbn [bind]. rewrite G. cbn [bind get].
    eexists. split; [reflexivity|]. repeat split.
Qed.

Lemma fetch_pending_offers_outcomes_witness :
  let held := set_pending three_offers (initial_session no_credentials) in
  pending_offers (fst (fst (fetch_pending_offers login_refused held)))
  = three_offers /\
  pending_offers (fst (fst (fetch_pending_offers one_offer_listed held)))
  = one_offer.
Proof.
  intros held. split.
  - rewrite (proj1 (fetch_pending_offers_outcomes login_refused held)
               (PlainException "Authentication failed") eq_refl).
    reflexivity.
  - destruct (proj2 (proj2 (proj2
                (fetch_pending_offers_outcomes one_offer_listed held)))
                (JStr "p", JStr "a") [("offers", one_offer)]
                eq_refl eq_refl)
      as [st' [E [P _]]].
    rewrite E. exact P.
Defined.

(** C6, as stated, fails when the listing is not a JSON object: the login
    returns the tokens, the listing request returns a list, and yet the
    offers held before are kept and an error is reported. *)
Lemma fetch_listing_not_object_counterexample :
  let held := set_pending one_offer (initial_session no_credentials) in
  authenticate_user listing_is_a_list "" "" "lms"
  = Ok (JStr "p", JStr "a") /\
  get_pending_offers listing_is_a_list (JStr "p") (JStr "a")
  = Ok three_offers /\
  fetch_pending_offers listing_is_a_list held
  = (held, [fetch_error AttributeError], None) /\
  pending_offers (fst (fst (fetch_pending_offers listing_is_a_list held)))
  = one_offer /\
  one_offer <> three_offers.
Proof. repeat split. discriminate. Qed.

(** ** The view-offers handlers *)

Section HandlerFacts.

Context `{rt : Runtime}.

Lemma filter_res_raises {A : Type} (f : A -> res bool) (l : list A) (x : A)
  (e : exn) :
  In x l -> f x = Raise e -> exists e', filter_res f l = Raise e'.
Proof.
  induction l as [|y r IH]; intros I F; [destruct I|].
  simpl. destruct I as [->|I].
  - rewrite F. now exists e.
  - destruct (f y); [|now eexists]. cbn [bind].
    destruct (IH I F) as [e' ->]. now exists e'.
Qed.

(** When the condition returns on every element the comprehension is the
    plain filter. *)
Lemma filter_res_total {A : Type} (f : A -> res bool) (g : A -> bool)
  (l : list A) :
  (forall x, In x l -> f x = Ok (g x)) -> filter_res f l = Ok (filter g l).
Proof.
  induction l as [|y r IH]; intros F; [reflexivity|].
  simpl. rewrite (F y (or_introl eq_refl)). cbn [bind].
  rewrite IH by (intros x I; apply F; now right). reflexivity.
Qed.

(** The search handler on a session without offers: a warning, no
    change. *)
Lemma search_unloaded_warns (m : llm) (search_query : string) (st : session) :
  pending_offers st = JNull ->
  search_offers m search_query st
  = {| out_state := st;
       out_ui := [UiWarning "No offers loaded. Refresh first."];
       out_ctl := Continue |}.
Proof. intros P. unfold search_offers. now rewrite P. Qed.

(** An offer with a parsed expiry is kept exactly when the whole days
    between now and the expiry, rounded down, are at most seven. *)
Lemma expiring_cond_dated (now t : Z) (d dd : list (string * json))
  (s : string) :
  lookup "duration" d = Some (JObj dd) ->
  lookup "to" dd = Some (JStr s) ->
  s <> "" ->
  strptime s = Ok t ->
  expiring_cond now (JObj d) = Ok (td_days (t - now) <=? 7)%Z.
Proof.
  intros D T N P. unfold expiring_cond. cbn [get getitem bind].
  rewrite D. cbn [get getitem bind]. rewrite T. cbn [truthy].
  apply String.eqb_neq in N. rewrite N. cbn [negb bind strptime_value].
  now rewrite P.
Qed.

(** An offer without expiry is left out. *)
Lemma expiring_cond_undated (now : Z) (d : list (string * json)) :
  lookup "duration" d = None \/
  (exists dd, lookup "duration" d = Some (JObj dd) /\
              (lookup "to" dd = None \/ lookup "to" dd = Some JNull \/
               lookup "to" dd = Some (JStr ""))) ->
  expiring_cond now (JObj d) = Ok false.
Proof.
  unfold expiring_cond. cbn [get bind].
  intros [->|[dd [-> T]]]; [reflexivity|]. cbn [get bind].
  destruct T as [->|[->| ->]]; reflexivity.
Qed.

Lemma td_days_le (delta n : Z) :
  (td_days delta <= n)%Z <-> (delta < (n + 1) * usec_per_day)%Z.
Proof.
  unfold td_days, usec_per_day.
  pose proof (Z.div_mod delta 86400000000 ltac:(lia)) as E.
  pose proof (Z.mod_pos_bound delta 86400000000 ltac:(lia)) as B.
  split; intros H; nia.
Qed.

(** Seven days ahead is kept, eight days ahead is not. *)
Lemma expiring_boundary (now : Z) :
  (td_days (now + 7 * usec_per_day - now) <=? 7)%Z = true /\
  (td_days (now + 8 * usec_per_day - now) <=? 7)%Z = false.
Proof.
  replace (now + 7 * usec_per_day - now)%Z with (7 * usec_per_day)%Z by lia.
  replace (now + 8 * usec_per_day - now)%Z with (8 * usec_per_day)%Z by lia.
  split; reflexivity.
Qed.

End HandlerFacts.

(** C7.  On a session without offers the two quick filters do not warn:
    iterating over [None] raises, nothing catches it, and the run stops
    there with the session as it was. *)
Theorem quick_filters_unloaded_raise `{rt : Runtime} (now : Z) (st : session) :
  pending_offers st = JNull ->
  expiring_soon now st
  = {| out_state := st; out_ui := []; out_ctl := Uncaught TypeError |} /\
  high_value st
  = {| out_state := st; out_ui := []; out_ctl := Uncaught TypeError |}.
Proof.
  intros P. unfold expiring_soon, high_value, assign_filtered.
  rewrite P. split; reflexivity.
Qed.

Lemma quick_filters_unloaded_raise_witness :
  let st := initial_session no_credentials in
  pending_offers st = JNull /\
  expiring_soon (H := Ref.runtime) 0 st
  = {| out_state := st; out_ui := []; out_ctl := Uncaught TypeError |}.
Proof.
  intros st. split; [reflexivity|].
  apply (quick_filters_unloaded_raise (rt := Ref.runtime) 0 st). reflexivity.
Defined.

(** C4.  An offer whose expiry is the sentinel is not left out by the
    Expiring Soon filter: its expiry is handed to the parser, the parser
    rejects it, the exception is not caught and no filtered collection is
    assigned. *)
Theorem expiring_soon_sentinel_raises `{rt : Runtime} (now : Z) (st : session)
  (l : list json) (o : json) (d dd : list (string * json)) (e : exn) :
  strptime no_end_date = Raise e ->
  pending_offers st = JArr l ->
  In o l ->
  o = JObj d ->
  lookup "duration" d = Some (JObj dd) ->
  lookup "to" dd = Some (JStr no_end_date) ->
  exists e',
    expiring_soon now st
    = {| out_state := st; out_ui := []; out_ctl := Uncaught e' |}.
Proof.
  intros S P I -> D T. unfold expiring_soon, assign_filtered.
  rewrite P. cbn [iter bind].
  assert (C : expiring_cond now (JObj d) = Raise e).
  { unfold expiring_cond. cbn [get getitem bind]. rewrite D.
    cbn [get getitem bind]. rewrite T. cbn. now rewrite S. }
  destruct (filter_res_raises _ _ _ I C) as [e' ->]. now exists e'.
Qed.

Lemma expiring_soon_sentinel_raises_witness :
  let st :=
    set_pending (JArr [sentinel_offer]) (initial_session no_credentials) in
  strptime (Runtime := Ref.runtime) no_end_date = Raise ValueError /\
  exists e',
    expiring_soon (H := Ref.runtime) 0 st
    = {| out_state := st; out_ui := []; out_ctl := Uncaught e' |}.
Proof.
  intros st. split; [reflexivity|].
  apply (expiring_soon_sentinel_raises (rt := Ref.runtime) 0 st
           (l := [sentinel_offer]) (o := sentinel_offer)
           (d := [("id", JInt 1);
                  ("duration", JObj [("to", JStr no_end_date)])])
           (dd := [("to", JStr no_end_date)]) (e := ValueError));
    try reflexivity.
  now left.
Defined.

(** At the sample input the exception is the parser's [ValueError]. *)
Lemma expiring_soon_sentinel_value_error (now : Z) :
  let st :=
    set_pending (JArr [sentinel_offer]) (initial_session no_credentials) in
  expiring_soon (H := Ref.runtime) now st
  = {| out_state := st; out_ui := []; out_ctl := Uncaught ValueError |}.
Proof. reflexivity. Qed.

(** The card, for its part, tests for the sentinel before it parses. *)
Lemma days_left_sentinel `{rt : Runtime} (now : Z) :
  days_left now sentinel_offer = Ok DaysNA.
Proof. reflexivity. Qed.

(** ** What is shown *)

Section ViewFacts.

Lemma map_res_raises {A B : Type} (f : A -> res B) (l : list A) (x : A)
  (e : exn) :
  In x l -> f x = Raise e -> exists e', map_res f l = Raise e'.
Proof.
  induction l as [|y r IH]; intros I F; [destruct I|].
  simpl. destruct I as [->|I].
  - rewrite F. now exists e.
  - destruct (f y); [|now eexists]. cbn [bind].
    destruct (IH I F) as [e' ->]. now exists e'.
Qed.

(** The key of an offer with an expiry cannot be computed. *)
Lemma sort_key_dated (d dd : list (string * json)) (t : json) :
  lookup "duration" d = Some (JObj dd) ->
  lookup "to" dd = Some t ->
  truthy t = true ->
  sort_key (JObj d) = Raise TypeError.
Proof.
  intros D T Y. unfold sort_key. cbn [get bind]. rewrite D.
  cbn [get bind]. rewrite T, Y. reflexivity.
Qed.

(** The only key that is ever computed is the far-future text. *)
Lemma sort_key_returns (x : json) (k : key) :
  sort_key x = Ok k -> k = KeyText far_future.
Proof.
  unfold sort_key. intros H.
  destruct (get x "duration" (JObj [])) as [d|]; [|discriminate].
  cbn [bind] in H. destruct (get d "to" JNull) as [t|]; [|discriminate].
  cbn [bind] in H. destruct (truthy t).
  - destruct (get d "to" (JStr far_future)); discriminate.
  - now inversion H.
Qed.

Lemma map_res_sort_key (l : list json) (keys : list key) :
  map_res sort_key l = Ok keys ->
  keys = map (fun _ => KeyText far_future) l.
Proof.
  revert keys; induction l as [|x r IH]; intros keys H; simpl in H.
  - now inversion H.
  - destruct (sort_key x) as [k|] eqn:K; [|discriminate]. cbn [bind] in H.
    destruct (map_res sort_key r) as [ks|]; [|discriminate].
    cbn [bind] in H. inversion H; subst.
    simpl. now rewrite (sort_key_returns _ K), (IH ks eq_refl).
Qed.

Lemma sort_keyed_equal_keys (l : list json) :
  sort_keyed (combine (map (fun _ => KeyText far_future) l) l)
  = Ok (combine (map (fun _ => KeyText far_future) l) l).
Proof.
  induction l as [|x r IH]; [reflexivity|].
  cbn [map combine sort_keyed]. rewrite IH. cbn [bind].
  destruct r; reflexivity.
Qed.

Lemma map_snd_combine {A B : Type} (f : B -> A) (l : list B) :
  map snd (combine (map f l) l) = l.
Proof. induction l as [|x r IH]; simpl; [reflexivity | now rewrite IH]. Qed.

(** X15.  The sort of the view never reorders: whenever it returns, the
    list is as it was, because every key that can be computed is the same
    text and the sort is stable. *)
Lemma sort_by_expiry_returns_input (l l' : list json) :
  sort_by_expiry l = Ok l' -> l' = l.
Proof.
  unfold sort_by_expiry. intros H.
  destruct (map_res sort_key l) as [keys|] eqn:K; [|discriminate].
  cbn [bind] in H. rewrite (map_res_sort_key _ K) in H.
  rewrite sort_keyed_equal_keys in H. cbn [bind] in H.
  inversion H. apply map_snd_combine.
Qed.

End ViewFacts.

(** C5.  The sort of the view does not order offers by expiry: as soon as
    one offer of the list has an expiry, computing its key raises and the
    sort raises with it, whether the expiry is well formed or not. *)
Theorem sort_dated_offer_raises (l : list json) (o : json)
  (d dd : list (string * json)) (t : json) :
  In o l ->
  o = JObj d ->
  lookup "duration" d = Some (JObj dd) ->
  lookup "to" dd = Some t ->
  truthy t = true ->
  exists e, sort_by_expiry l = Raise e.
Proof.
  intros I -> D T Y. unfold sort_by_expiry.
  destruct (map_res_raises sort_key l _ I (sort_key_dated d D T Y)) as [e ->].
  now exists e.
Qed.

Lemma sort_dated_offer_raises_witness :
  In dated_offer [dated_offer] /\
  exists e, sort_by_expiry [dated_offer] = Raise e.
Proof.
  split; [now left|].
  apply (sort_dated_offer_raises [dated_offer] (o := dated_offer)
           (d := [("id", JInt 2);
                  ("duration", JObj [("to", JStr "2025-01-01 10:00")])])
           (dd := [("to", JStr "2025-01-01 10:00")])
           (t := JStr "2025-01-01 10:00"));
    try reflexivity.
  now left.
Defined.

(** The view on one loaded offer with a well-formed expiry. *)
Lemma view_dated_offer_raises :
  view_offers (set_pending (JArr [dated_offer])
                 (initial_session no_credentials))
  = ViewRaises TypeError.
Proof. reflexivity. Qed.

(** C10.  What is shown is the filtered collection when it is not empty
    and the base collection otherwise: an empty filtered list shows the
    base collection, and the view is then the view of the session without
    a filter. *)
Theorem empty_filter_shows_base (st : session) :
  (filtered_offers st = JArr [] ->
     offers_to_display st = pending_offers st /\
     view_offers st = view_offers (set_filtered JNull st)) /\
  (forall o l, filtered_offers st = JArr (o :: l) ->
     offers_to_display st = filtered_offers st) /\
  (offers_to_display st <> pending_offers st ->
     truthy (filtered_offers st) = true /\
     offers_to_display st = filtered_offers st).
Proof.
  unfold view_offers, offers_to_display, por. repeat split.
  - now rewrite H.
  - now rewrite H.
  - intros o l H. now rewrite H.
  - destruct (truthy (filtered_offers st)); [reflexivity | contradiction].
  - destruct (truthy (filtered_offers st)); [reflexivity | contradiction].
Qed.

Lemma empty_filter_shows_base_witness :
  let st := set_filtered (JArr []) (set_pending one_offer
              (initial_session no_credentials)) in
  filtered_offers st = JArr [] /\ offers_to_display st = one_offer.
Proof.
  intros st. split; [reflexivity|].
  apply (proj1 (empty_filter_shows_base st)). reflexivity.
Defined.

(** ** The Generate Offer handler *)

(** C8, as the code has it.  When the reply, fences stripped, is not
    JSON, the handler reports the error and leaves the session as it was.
    When it is a JSON object the handler stores it as the draft, marks
    the offer as created and reruns, whatever fields the object has: no
    field is required. *)
Theorem generate_offer_outcomes `{rt : Runtime} (m : llm) (st : session)
  (s : string) :
  client m = Ok tt ->
  chat m = Ok (Some s) ->
  (forall e, json_loads (Fence.re_sub s) = Raise e ->
     generate_offer m st
     = {| out_state := st; out_ui := [generate_error e];
          out_ctl := Continue |}) /\
  (forall d, json_loads (Fence.re_sub s) = Ok (JObj d) ->
     generate_offer m st
     = {| out_state :=
            set_offer_created true
              (set_adjusted_params (JObj d) (set_offer_params (JObj d) st));
          out_ui := []; out_ctl := Rerun |}).
Proof.
  intros C R. unfold generate_offer. rewrite C, R.
  cbn [bind Fence.strip_fences]. split.
  - intros e ->. reflexivity.
  - intros d ->. reflexivity.
Qed.

Lemma generate_offer_outcomes_witness :
  let m := {| client := Ok tt; chat := Ok (Some "Sorry, no offer") |} in
  let st := initial_session no_credentials in
  generate_offer (H := Ref.runtime) m st
  = {| out_state := st; out_ui := [generate_error JSONDecodeError];
       out_ctl := Continue |}.
Proof.
  intros m st.
  apply (proj1 (generate_offer_outcomes (rt := Ref.runtime) m st
                  (s := "Sorry, no offer") eq_refl eq_refl)).
  reflexivity.
Defined.

(** C8, as stated, fails for the required fields: an object with neither
    an offer type nor a value is accepted as the draft. *)
Lemma generate_offer_missing_fields_counterexample :
  let m := {| client := Ok tt; chat := Ok (Some "{}") |} in
  let st := initial_session no_credentials in
  lookup "offer_type" [] = None /\ lookup "value" [] = None /\
  generate_offer (H := Ref.runtime) m st
  = {| out_state :=
         set_offer_created true
           (set_adjusted_params (JObj []) (set_offer_params (JObj []) st));
       out_ui := []; out_ctl := Rerun |}.
Proof. repeat split. Qed.

(** A reply that is JSON but neither an object nor an array is reported
    as an error after it has been stored as the offer parameters. *)
Lemma generate_offer_scalar `{rt : Runtime} (m : llm) (st : session)
  (s : string) (n : Z) :
  client m = Ok tt ->
  chat m = Ok (Some s) ->
  json_loads (Fence.re_sub s) = Ok (JInt n) ->
  generate_offer m st
  = {| out_state := set_offer_params (JInt n) st;
       out_ui := [generate_error AttributeError];
       out_ctl := Continue |}.
Proof.
  intros C R P. unfold generate_offer. rewrite C, R.
  cbn [bind Fence.strip_fences]. now rewrite P.
Qed.

(** ** The browsing side as a state machine *)

Section Lifecycle.

Context `{rt : Runtime}.

Lemma filter_try_returns (m : llm) (offers kept : json) :
  filter_try m offers = Ok kept ->
  exists l l', iter offers = Ok l /\ kept = JArr l' /\ subseq l' l.
Proof.
  unfold filter_try. intros H.
  destruct (client m); [|discriminate]. cbn [bind] in H.
  destruct (iter offers) as [l|]; [|discriminate]. cbn [bind] in H.
  destruct (for_each offer_summary l); [|discriminate]. cbn [bind] in H.
  destruct (chat m) as [content|]; [|discriminate]. cbn [bind] in H.
  destruct (loads_content content) as [result|]; [|discriminate].
  cbn [bind] in H.
  destruct (filter_res (id_matches result) l) as [l'|] eqn:E;
    [|discriminate].
  inversion H; subst. exists l, l'. repeat split.
  exact (filter_res_subseq _ _ E).
Qed.

Lemma generate_offer_keeps_offers (m : llm) (st : session) :
  pending_offers (out_state (generate_offer m st)) = pending_offers st /\
  filtered_offers (out_state (generate_offer m st)) = filtered_offers st.
Proof.
  unfold generate_offer.
  destruct (_ <- client m ;; content <- chat m ;;
            content' <- Fence.strip_fences content ;; json_loads content')
    as [params|e]; [|split; reflexivity].
  destruct (copy (offer_params (set_offer_params params st)));
    split; reflexivity.
Qed.

Lemma assign_filtered_from_base (cond : json -> res bool) (st : session) :
  filtered_from_base st ->
  filtered_from_base (out_state (assign_filtered cond st)).
Proof.
  intros I. unfold assign_filtered.
  destruct (iter (pending_offers st)) as [l|] eqn:L; [|exact I].
  cbn [bind]. destruct (filter_res cond l) as [kept|] eqn:K; [|exact I].
  right; right. exists l, kept. cbn. repeat split; try assumption.
  exact (filter_res_subseq _ _ K).
Qed.

Lemma handle_filtered_from_base (a : action) (st : session) :
  filtered_from_base st -> filtered_from_base (out_state (handle a st)).
Proof.
  intros I. destruct a as [m|m q|w|now|]; cbn [handle].
  - destruct (generate_offer_keeps_offers m st) as [P F].
    unfold filtered_from_base. rewrite P, F. exact I.
  - unfold search_offers.
    destruct (truthy (pending_offers st) && negb (String.eqb q "")).
    + unfold filter_offers_with_llm.
      destruct (filter_try m (pending_offers st)) as [kept|e] eqn:E.
      * destruct (filter_try_returns _ _ E) as [l [l' [L [-> S]]]].
        right; right. exists l, l'. cbn. auto.
      * right; left. reflexivity.
    + destruct (negb (truthy (pending_offers st))); exact I.
  - unfold refresh_offers.
    destruct (fetch_pending_offers w st) as [[st1 msgs] r].
    left. reflexivity.
  - now apply assign_filtered_from_base.
  - now apply assign_filtered_from_base.
Qed.

(** The invariant of the browsing side, by induction on the run. *)
Lemma reachable_keeps_filter_derived (c : credentials) (st : session) :
  reachable c st -> filtered_from_base st.
Proof.
  induction 1 as [|a st R IH].
  - left. reflexivity.
  - now apply handle_filtered_from_base.
Qed.

(** X16.  In every session the page can reach, the filtered collection
    is derived from the base collection that is held: it is unset, or the
    base collection itself, or a list that keeps some of its elements in
    their order. *)
Theorem reachable_filtered_from_base (c : credentials) (st : session) :
  reachable c st -> filtered_from_base st.
Proof.
  induction 1 as [|a st R IH].
  - left. reflexivity.
  - destruct a; apply handle_filtered_from_base; exact IH.
Qed.

(** X28.  In every session the page can reach, while no base collection
    is held ([None]) no filtered collection is held either. *)
Corollary unloaded_has_no_filter (c : credentials) (st : session) :
  reachable c st ->
  pending_offers st = JNull -> filtered_offers st = JNull.
Proof.
  intros R P.
  destruct (reachable_keeps_filter_derived R) as [F|[F|[l [l' [L _]]]]].
  - exact F.
  - now rewrite F.
  - rewrite P in L. discriminate.
Qed.

(** X12.  A search always starts from the base collection, not from the
    previous selection: up to the filtered collection, the session it
    leaves does not depend on the filter it finds, and when the model is
    asked the filtered collection it leaves does not either. *)
Lemma search_ignores_previous_filter (m : llm) (q : string) (st : session)
  (v : json) :
  set_filtered JNull (out_state (search_offers m q (set_filtered v st)))
  = set_filtered JNull (out_state (search_offers m q st)) /\
  (truthy (pending_offers st) && negb (String.eqb q "") = true ->
   filtered_offers (out_state (search_offers m q (set_filtered v st)))
   = filtered_offers (out_state (search_offers m q st))).
Proof.
  unfold search_offers. cbn [pending_offers set_filtered].
  destruct (truthy (pending_offers st) && negb (String.eqb q "")).
  - destruct (filter_offers_with_llm m q (pending_offers st)).
    split; reflexivity.
  - destruct (negb (truthy (pending_offers st)));
      split; try reflexivity; discriminate.
Qed.

End Lifecycle.

(** ** The marketplace requests *)

Section ClientFacts.

Variable w : remote.

Lemma authenticate_user_refused (e p a : string) (r : response) :
  post_login w e p a = Ok r ->
  ok r = false ->
  authenticate_user w e p a = Raise (PlainException "Authentication failed").
Proof. intros P O. unfold authenticate_user. rewrite P. cbn. now rewrite O. Qed.

Lemma authenticate_user_tokens (e p a : string) (r : response)
  (top data first : list (string * json)) (others : list json)
  (pt at' : json) :
  post_login w e p a = Ok r ->
  ok r = true ->
  body r = Ok (JObj top) ->
  lookup "data" top = Some (JObj data) ->
  lookup "auth" data = Some (JArr (JObj first :: others)) ->
  lookup "permissionToken" first = Some pt ->
  lookup "authToken" first = Some at' ->
  authenticate_user w e p a = Ok (pt, at').
Proof.
  intros P O B D A T1 T2. unfold authenticate_user.
  rewrite P. cbn [bind]. rewrite O. cbn [negb]. rewrite B.
  cbn [bind getitem]. rewrite D. cbn [bind getitem]. rewrite A.
  cbn [bind getitem getitem0]. now rewrite T1, T2.
Qed.

Lemma get_pending_offers_status (pt at' : json) (r : response) :
  get_pending w pt at' = Ok r ->
  status_code r <> 200%Z ->
  get_pending_offers w pt at'
  = Raise (PlainException "Failed to retrieve offers").
Proof.
  intros G S. unfold get_pending_offers. rewrite G. cbn [bind].
  apply Z.eqb_neq in S. now rewrite S.
Qed.

Lemma get_pending_offers_listing (pt at' : json) (r : response) :
  get_pending w pt at' = Ok r ->
  status_code r = 200%Z ->
  get_pending_offers w pt at' = body r.
Proof.
  intros G S. unfold get_pending_offers. rewrite G. cbn [bind].
  now rewrite S.
Qed.

End ClientFacts.

(** ** Runs on the sample inputs *)

(** The model names offers 1 and 3 among three offers. *)
Example filter_selects_named_offers :
  filter_offers_with_llm (H := Ref.runtime)
    {| client := Ok tt; chat := Ok (Some reply_1_3) |} "food" three_offers
  = (JArr [JObj [("id", JInt 1)]; JObj [("id", JInt 3)]], []).
Proof. reflexivity. Qed.

(** Expiring Soon at ten o'clock on the first of January: the offer that
    ends seven days later to the minute is kept, so is one that ends
    almost eight days later, the one that ends eight days later is not,
    and neither is the offer without expiry. *)
Example expiring_soon_week :
  let st :=
    set_pending
      (JArr [offer_expiring 1 "2025-01-08 10:00";
             offer_expiring 2 "2025-01-09 10:00";
             offer_expiring 3 "2025-01-09 09:59";
             JObj [("id", JInt 4)]])
      (initial_session no_credentials) in
  match Ref.parse_expiry "2025-01-01 10:00" with
  | Ok now =>
      filtered_offers (out_state (expiring_soon (H := Ref.runtime) now st))
      = JArr [offer_expiring 1 "2025-01-08 10:00";
              offer_expiring 3 "2025-01-09 09:59"]
  | Raise _ => False
  end.
Proof. reflexivity. Qed.

(** A refresh, a search that fails open, and a quick filter, in a row. *)
Example refresh_then_search :
  let st1 :=
    out_state (handle (H := Ref.runtime) (Refresh one_offer_listed)
                 (initial_session no_credentials)) in
  let st2 :=
    out_state (handle (H := Ref.runtime)
                 (Search {| client := Ok tt; chat := Raise APIError |} "food")
                 st1) in
  pending_offers st1 = one_offer /\ filtered_offers st1 = JNull /\
  filtered_offers st2 = one_offer /\
  filtered_offers (out_state (handle (H := Ref.runtime) HighValue st2))
  = JArr [].
Proof. repeat split. Qed.

(** * Further properties of the script *)

(** ** More on the code-fence substitution *)

Section FenceMore.

Import Fence.

Lemma length_append (a b : string) :
  String.length (a ++ b) = (String.length a + String.length b)%nat.
Proof. induction a as [|c a IH]; simpl; [reflexivity | now rewrite IH]. Qed.

Lemma closing_lengths (s r : string) :
  closing s = Some r -> (String.length r + 3 <= String.length s)%nat.
Proof. apply closing_shorter. Qed.

Lemma lazy_body_lengths (s g r : string) :
  lazy_body s = Some (g, r) ->
  (String.length g + String.length r + 3 <= String.length s)%nat.
Proof.
  revert g r; induction s as [|c t IH]; intros g r H;
    rewrite lazy_body_eq in H.
  - discriminate.
  - destruct (closing (String c t)) as [r'|] eqn:E.
    + inversion H; subst. apply closing_lengths in E. simpl in *. lia.
    + destruct (lazy_body t) as [[g' r']|]; [|discriminate].
      inversion H; subst. specialize (IH _ _ eq_refl). simpl. lia.
Qed.

(** A match takes at least the ten characters of its two markers out of
    the text. *)
Lemma match_at_lengths (s g r : string) :
  match_at s = Some (g, r) ->
  (String.length g + String.length r + 10 <= String.length s)%nat.
Proof.
  unfold match_at. intros H.
  destruct (drop_prefix fence_json s) as [u|] eqn:E; [|discriminate].
  apply length_drop_prefix in E. simpl in E.
  assert (L : forall v, lazy_body v = Some (g, r) ->
              (String.length g + String.length r + 3 <= String.length v)%nat)
    by (intros v; apply lazy_body_lengths).
  destruct u as [|c t].
  - apply L in H. simpl in H. lia.
  - destruct (Ascii.eqb c nl).
    + destruct (lazy_body t) as [m|] eqn:E'.
      * inversion H; subst m. apply L in E'. simpl in E. lia.
      * apply L in H. lia.
    + apply L in H. lia.
Qed.

Lemma match_at_plain_head (c : ascii) (s : string) :
  Ascii.eqb "`" c = false -> match_at (String c s) = None.
Proof.
  intros H. unfold match_at, fence_json. cbn [drop_prefix]. now rewrite H.
Qed.

End FenceMore.

(** X1.  The substitution never makes a text longer: it returns the text
    as it is, or a text at least ten characters shorter (the two markers
    of one block). *)
Theorem strip_unchanged_or_shorter (s : string) :
  Fence.re_sub s = s \/
  (String.length (Fence.re_sub s) + 10 <= String.length s)%nat.
Proof.
  assert (B : forall n s, (String.length s <= n)%nat ->
            Fence.re_sub s = s \/
            (String.length (Fence.re_sub s) + 10 <= String.length s)%nat).
  { induction n as [|n IH]; intros u L.
    - destruct u; [now left | simpl in L; lia].
    - rewrite re_sub_step.
      destruct (Fence.match_at u) as [[g r]|] eqn:E.
      + right. pose proof (match_at_lengths _ E) as M.
        rewrite length_append.
        destruct (IH r) as [-> | K]; lia.
      + destruct u as [|c t]; [now left|].
        simpl in L. destruct (IH t) as [-> | K]; [lia| |].
        * now left.
        * right. simpl. lia. }
  apply (B (String.length s)). lia.
Qed.

(** X2.  A labelled block at the start of a text is replaced by its
    content and the scan goes on behind it, so several blocks in a row are
    all replaced. *)
Theorem strip_block_then_rest (inner rest : string) :
  occurs Fence.fence inner = false ->
  Fence.re_sub
    (Fence.fence_json
     ++ String Fence.nl (inner ++ String Fence.nl (Fence.fence ++ rest)))
  = inner ++ Fence.re_sub rest.
Proof.
  intros H. rewrite re_sub_step. now rewrite (match_at_labelled inner rest H).
Qed.

Lemma strip_block_then_rest_witness :
  occurs Fence.fence "{}" = false /\
  Fence.re_sub
    (Fence.fence_json
     ++ String Fence.nl ("{}" ++ String Fence.nl (Fence.fence ++
        (Fence.fence_json
         ++ String Fence.nl ("[]" ++ String Fence.nl Fence.fence)))))
  = "{}[]".
Proof.
  split; [reflexivity|].
  rewrite (strip_block_then_rest "{}"
             (Fence.fence_json
              ++ String Fence.nl ("[]" ++ String Fence.nl Fence.fence))
             eq_refl).
  reflexivity.
Defined.

(** X3.  Text in front of a block stays: when the text before has no
    backquote, the substitution keeps it character for character and
    works on what follows. *)
Theorem strip_keeps_text_before (before s : string) :
  mentions "`" before = false ->
  Fence.re_sub (before ++ s) = before ++ Fence.re_sub s.
Proof.
  induction before as [|c t IH]; intros H.
  - reflexivity.
  - cbn [mentions] in H. apply orb_false_elim in H as [H1 H2].
    cbn [append]. rewrite re_sub_step.
    rewrite (match_at_plain_head c (t ++ s) H1).
    now rewrite (IH H2).
Qed.

Lemma strip_keeps_text_before_witness :
  mentions "`" "Offer: " = false /\
  Fence.re_sub
    ("Offer: " ++ Fence.fence_json
     ++ String Fence.nl ("{}" ++ String Fence.nl Fence.fence))
  = "Offer: {}".
Proof.
  split; [reflexivity|].
  rewrite (strip_keeps_text_before "Offer: "
             (Fence.fence_json
              ++ String Fence.nl ("{}" ++ String Fence.nl Fence.fence))
             eq_refl).
  reflexivity.
Defined.

Lemma strip_labelled_compact_witness :
  occurs Fence.fence "{}" = false /\ plain_ends "{}" = true /\
  Fence.re_sub (Fence.fence_json ++ "{}" ++ Fence.fence) = "{}".
Proof.
  split; [reflexivity|]. split; [reflexivity|].
  apply (strip_labelled_compact "{}"); reflexivity.
Defined.

(** ** More on the marketplace client *)

Section ClientMore.

Variable w : remote.

Lemma getitem_returns (o v : json) (k : string) :
  getitem o k = Ok v -> exists d, o = JObj d /\ lookup k d = Some v.
Proof.
  destruct o; try discriminate. simpl.
  destruct (lookup k d) eqn:E; [|discriminate].
  intros H. inversion H; subst. now exists d.
Qed.

Lemma authenticate_user_returns (e p a : string) (pt at' : json) :
  authenticate_user w e p a = Ok (pt, at') ->
  exists r top data first others,
    post_login w e p a = Ok r /\ ok r = true /\ body r = Ok (JObj top) /\
    lookup "data" top = Some (JObj data) /\
    lookup "auth" data = Some (JArr (JObj first :: others)) /\
    lookup "permissionToken" first = Some pt /\
    lookup "authToken" first = Some at'.
Proof.
  unfold authenticate_user. intros H.
  destruct (post_login w e p a) as [r|]; [|discriminate]. cbn [bind] in H.
  destruct (ok r) eqn:O; [|discriminate]. cbn [negb] in H.
  destruct (body r) as [auth_data|] eqn:B; [|discriminate]. cbn [bind] in H.
  destruct (getitem auth_data "data") as [d|] eqn:D; [|discriminate].
  cbn [bind] in H.
  destruct (getitem_returns _ _ D) as [top [-> Dt]].
  destruct (getitem d "auth") as [l|] eqn:A; [|discriminate].
  cbn [bind] in H.
  destruct (getitem_returns _ _ A) as [data [-> Da]].
  destruct (getitem0 l) as [a0|] eqn:Z0; [|discriminate]. cbn [bind] in H.
  destruct (getitem a0 "permissionToken") as [t1|] eqn:T1; [|discriminate].
  cbn [bind] in H.
  destruct (getitem_returns _ _ T1) as [first [-> L1]].
  destruct (getitem (JObj first) "authToken") as [t2|] eqn:T2;
    [|discriminate].
  cbn [bind] in H. inversion H; subst.
  destruct (getitem_returns _ _ T2) as [first' [F L2]].
  inversion F; subst first'.
  destruct l as [| | | | [|c u] | [|x others] | ]; try discriminate;
    simpl in Z0; inversion Z0; subst.
  exists r, top, data, first, others. repeat split; assumption.
Qed.

End ClientMore.

(** X5.  The login returns a pair of tokens exactly when the request
    returns, the response is ok, its body is an object whose data member
    holds an auth list that starts with an object, and that object has
    both tokens; the tokens returned are those of this first entry. *)
Theorem authenticate_user_returns_iff (w : remote) (e p a : string)
  (pt at' : json) :
  authenticate_user w e p a = Ok (pt, at') <->
  exists r top data first others,
    post_login w e p a = Ok r /\ ok r = true /\ body r = Ok (JObj top) /\
    lookup "data" top = Some (JObj data) /\
    lookup "auth" data = Some (JArr (JObj first :: others)) /\
    lookup "permissionToken" first = Some pt /\
    lookup "authToken" first = Some at'.
Proof.
  split.
  - apply authenticate_user_returns.
  - intros [r [top [data [first [others [P [O [B [D [A [T1 T2]]]]]]]]]]].
    eapply authenticate_user_tokens; eassumption.
Qed.

Lemma authenticate_user_returns_iff_witness :
  authenticate_user one_offer_listed "" "" "lms" = Ok (JStr "p", JStr "a").
Proof.
  apply (proj2 (authenticate_user_returns_iff one_offer_listed "" "" "lms"
                  (JStr "p") (JStr "a"))).
  eexists _, _, _, _, _. repeat split; reflexivity.
Defined.

(** X6.  A refresh whose fetch fails keeps the offers that are held, but
    still clears the filtered collection and reruns the script; the one
    message on the page is the error of the fetch. *)
Theorem refresh_failure_clears_filter (w : remote) (st : session) :
  snd (fetch_pending_offers w st) = None ->
  exists e,
    refresh_offers w st
    = {| out_state := set_filtered JNull st; out_ui := [fetch_error e];
         out_ctl := Rerun |}.
Proof.
  unfold refresh_offers, fetch_pending_offers.
  destruct (fetch_try w st) as [[offers fetched]|e]; [discriminate|].
  intros _. now exists e.
Qed.

Lemma refresh_failure_clears_filter_witness :
  let st :=
    set_filtered (JArr []) (set_pending one_offer
      (initial_session no_credentials)) in
  snd (fetch_pending_offers login_refused st) = None /\
  exists e,
    refresh_offers login_refused st
    = {| out_state := set_filtered JNull st; out_ui := [fetch_error e];
         out_ctl := Rerun |}.
Proof.
  intros st. split; [reflexivity|].
  apply (refresh_failure_clears_filter login_refused st). reflexivity.
Defined.

(** ** More on the offer filter *)

Section FilterMore.

Context `{rt : Runtime}.

Lemma for_each_raises {A : Type} (f : A -> res unit) (l : list A) (x : A)
  (e : exn) :
  In x l -> f x = Raise e -> exists e', for_each f l = Raise e'.
Proof.
  induction l as [|y r IH]; intros I F; [destruct I|].
  simpl. destruct I as [->|I].
  - rewrite F. now exists e.
  - destruct (f y) as [[]|]; [|now eexists]. cbn [bind]. now apply IH.
Qed.

Lemma for_each_subseq {A : Type} (f : A -> res unit) (l l' : list A) :
  subseq l' l -> for_each f l = Ok tt -> for_each f l' = Ok tt.
Proof.
  induction 1 as [|x l1 l2 _ IH|x l1 l2 _ IH]; intros H; simpl in *.
  - reflexivity.
  - destruct (f x) as [[]|]; [|discriminate]. now apply IH.
  - destruct (f x) as [[]|]; [|discriminate]. cbn [bind] in *. now apply IH.
Qed.

(** Filtering what a comprehension kept keeps all of it. *)
Lemma filter_res_again {A : Type} (f : A -> res bool) (l l' : list A) :
  filter_res f l = Ok l' -> filter_res f l' = Ok l'.
Proof.
  revert l'; induction l as [|x r IH]; intros l' H; simpl in H.
  - now inversion H.
  - destruct (f x) as [b|] eqn:F; [|discriminate]. cbn [bind] in H.
    destruct (filter_res f r) as [r'|]; [|discriminate]. cbn [bind] in H.
    inversion H; subst. destruct b.
    + simpl. rewrite F. cbn [bind]. now rewrite (IH r' eq_refl).
    + now apply IH.
Qed.

Lemma id_matches_listed (d : list (string * json)) (ids : list json)
  (l : list json) :
  lookup "matching_ids" d = Some (JArr ids) ->
  for_each offer_summary l = Ok tt ->
  filter_res (id_matches (JObj d)) l = Ok (filter (id_listed ids) l).
Proof.
  intros D. induction l as [|o r IH]; intros S; simpl in *.
  - reflexivity.
  - destruct (offer_summary o) as [[]|] eqn:E; [|discriminate].
    cbn [bind] in S. destruct (offer_summary_dict _ E) as [od ->].
    unfold id_matches at 1, id_listed at 1, offer_id.
    cbn [get bind]. rewrite D. cbn [contains bind].
    now rewrite (IH S).
Qed.

Lemma filter_try_of_list (m : llm) (l : list json) (content : option string)
  (result : json) :
  client m = Ok tt ->
  for_each offer_summary l = Ok tt ->
  chat m = Ok content ->
  loads_content content = Ok result ->
  filter_try m (JArr l)
  = (kept <- filter_res (id_matches result) l ;; Ok (JArr kept)).
Proof.
  intros C S R P. unfold filter_try. rewrite C. cbn [bind iter].
  rewrite S. cbn [bind]. rewrite R. cbn [bind]. now rewrite P.
Qed.

End FilterMore.

(** X7.  When the reply is an object whose matching_ids member is a
    list, and the summary of every offer can be built, the filter returns
    exactly the offers whose id is in the list, in their order, and
    reports nothing.  An id is in the list when it is the same object as
    an element or equals one, so an id that is NaN is found in a list
    that holds NaN. *)
Theorem filter_selects_listed_ids `{rt : Runtime} (m : llm)
  (prompt s : string) (l : list json) (d : list (string * json))
  (ids : list json) :
  client m = Ok tt ->
  for_each offer_summary l = Ok tt ->
  chat m = Ok (Some s) ->
  json_loads s = Ok (JObj d) ->
  lookup "matching_ids" d = Some (JArr ids) ->
  filter_offers_with_llm m prompt (JArr l)
  = (JArr (filter (id_listed ids) l), []).
Proof.
  intros C S R P D. unfold filter_offers_with_llm.
  rewrite (filter_try_of_list m l (content := Some s) C S R P).
  now rewrite (id_matches_listed d l D S).
Qed.

Lemma filter_selects_listed_ids_witness :
  filter_offers_with_llm (H := Ref.runtime)
    {| client := Ok tt; chat := Ok (Some reply_1_3) |} "food" three_offers
  = (JArr (filter (id_listed [JInt 1; JInt 3])
             [JObj [("id", JInt 1)]; JObj [("id", JInt 2)];
              JObj [("id", JInt 3)]]), []).
Proof.
  eapply (filter_selects_listed_ids (rt := Ref.runtime)); reflexivity.
Defined.

(** NaN is in a list that holds NaN, although it does not equal
    itself. *)
Remark nan_in_list_with_nan :
  contains (JFloat S754_nan) (JArr [JInt 1; JFloat S754_nan]) = Ok true /\
  Py.eq (JFloat S754_nan) (JFloat S754_nan) = false.
Proof. split; reflexivity. Qed.

(** The model names NaN and 3: the offer whose id is NaN is selected with
    offer 3. *)
Example filter_selects_nan_id :
  filter_offers_with_llm (H := Ref.runtime)
    {| client := Ok tt; chat := Ok (Some reply_nan_3) |} "food"
    offers_with_nan
  = (JArr [JObj [("id", JFloat S754_nan)]; JObj [("id", JInt 3)]], []).
Proof. reflexivity. Qed.

(** X8.  One offer with an empty list of merchants is enough for the
    filter to fail open: building its summary line raises, so whatever
    the model would answer, all offers come back with an error
    message. *)
Theorem filter_empty_merchants_fails_open `{rt : Runtime} (m : llm)
  (prompt : string) (l : list json) (o : json) (d : list (string * json)) :
  In o l ->
  o = JObj d ->
  lookup "merchants" d = Some (JArr []) ->
  exists e,
    filter_offers_with_llm m prompt (JArr l) = (JArr l, [filter_error e]).
Proof.
  intros I -> M. unfold filter_offers_with_llm, filter_try.
  destruct (client m) as [[]|e0]; [|now exists e0]. cbn [bind iter].
  assert (S : offer_summary (JObj d) = Raise IndexError).
  { unfold offer_summary. cbn [get bind]. now rewrite M. }
  destruct (for_each_raises offer_summary l _ I S) as [e ->].
  now exists e.
Qed.

Lemma filter_empty_merchants_fails_open_witness :
  let o := JObj [("id", JInt 1); ("merchants", JArr [])] in
  let m := {| client := Ok tt; chat := Ok (Some reply_1_3) |} in
  In o [o] /\
  exists e,
    filter_offers_with_llm (H := Ref.runtime) m "food" (JArr [o])
    = (JArr [o], [filter_error e]).
Proof.
  intros o m. split; [now left|].
  eapply (filter_empty_merchants_fails_open (rt := Ref.runtime));
    [now left | reflexivity | reflexivity].
Defined.

(** X9.  Filtering is idempotent for one answer of the model: filtering
    the result again with the same answer returns the same result. *)
Theorem filter_twice_same `{rt : Runtime} (m : llm) (prompt : string)
  (l : list json) :
  fst (filter_offers_with_llm m prompt
         (fst (filter_offers_with_llm m prompt (JArr l))))
  = fst (filter_offers_with_llm m prompt (JArr l)).
Proof.
  unfold filter_offers_with_llm at 2 3.
  destruct (filter_try m (JArr l)) as [kept|e] eqn:E; cbn [fst].
  - unfold filter_try in E.
    destruct (client m) as [[]|] eqn:C; [|discriminate]. cbn [bind iter] in E.
    destruct (for_each offer_summary l) as [[]|] eqn:S; [|discriminate].
    cbn [bind] in E.
    destruct (chat m) as [content|] eqn:R; [|discriminate]. cbn [bind] in E.
    destruct (loads_content content) as [result|] eqn:P; [|discriminate].
    cbn [bind] in E.
    destruct (filter_res (id_matches result) l) as [l'|] eqn:F;
      [|discriminate].
    cbn [bind] in E. inversion E; subst kept.
    unfold filter_offers_with_llm.
    rewrite (filter_try_of_list m l' C
               (for_each_subseq _ (filter_res_subseq _ _ F) S) R P).
    now rewrite (filter_res_again _ _ F).
  - unfold filter_offers_with_llm. now rewrite E.
Qed.

(** X10.  A reply that is valid JSON but not an object, such as a bare
    list of ids, selects nothing and removes nothing: with at least one
    offer the lookup of the member raises and all offers come back with
    an error message. *)
Theorem filter_reply_not_object `{rt : Runtime} (m : llm) (prompt s : string)
  (o : json) (r : list json) (result : json) :
  client m = Ok tt ->
  for_each offer_summary (o :: r) = Ok tt ->
  chat m = Ok (Some s) ->
  json_loads s = Ok result ->
  (forall d, result <> JObj d) ->
  filter_offers_with_llm m prompt (JArr (o :: r))
  = (JArr (o :: r), [filter_error AttributeError]).
Proof.
  intros C S R P N. unfold filter_offers_with_llm.
  rewrite (filter_try_of_list m (o :: r) (content := Some s) C S R P).
  cbn [for_each] in S.
  destruct (offer_summary o) as [[]|] eqn:E; [|discriminate].
  destruct (offer_summary_dict _ E) as [od ->].
  cbn [filter_res]. unfold id_matches at 1. cbn [get bind].
  destruct result; try reflexivity. now destruct (N d).
Qed.

Lemma filter_reply_not_object_witness :
  filter_offers_with_llm (H := Ref.runtime)
    {| client := Ok tt; chat := Ok (Some "[1, 3]") |} "food" three_offers
  = (three_offers, [filter_error AttributeError]).
Proof.
  eapply (filter_reply_not_object (rt := Ref.runtime)); try reflexivity.
  discriminate.
Defined.

(** ** More on the view-offers handlers *)

(** X11.  The search handler asks the model only for a non-empty query
    on a non-empty base collection.  Otherwise it changes nothing; it
    warns when no offers are held ([None] or an empty list) and is
    silent when only the query is empty. *)
Theorem search_without_query_or_offers `{rt : Runtime} (m : llm)
  (search_query : string) (st : session) :
  search_query = "" \/ truthy (pending_offers st) = false ->
  out_state (search_offers m search_query st) = st /\
  out_ctl (search_offers m search_query st) = Continue /\
  out_ui (search_offers m search_query st)
  = if truthy (pending_offers st) then []
    else [UiWarning "No offers loaded. Refresh first."].
Proof.
  intros H. unfold search_offers.
  destruct (truthy (pending_offers st)) eqn:T.
  - destruct H as [->|H]; [|discriminate]. cbn. auto.
  - cbn. auto.
Qed.

Lemma search_without_query_or_offers_witness :
  let st := set_pending (JArr []) (initial_session no_credentials) in
  let m := {| client := Ok tt; chat := Ok (Some reply_1_3) |} in
  truthy (pending_offers st) = false /\
  out_ui (search_offers (H := Ref.runtime) m "food" st)
  = [UiWarning "No offers loaded. Refresh first."].
Proof.
  intros st m. split; [reflexivity|].
  eapply (search_without_query_or_offers (rt := Ref.runtime)).
  now right.
Defined.

Lemma search_ignores_previous_filter_witness :
  let st := set_pending three_offers (initial_session no_credentials) in
  let m := {| client := Ok tt; chat := Ok (Some reply_1_3) |} in
  filtered_offers
    (out_state (search_offers (H := Ref.runtime) m "food"
                  (set_filtered (JArr []) st)))
  = filtered_offers (out_state (search_offers (H := Ref.runtime) m "food" st)).
Proof.
  intros st m.
  eapply (search_ignores_previous_filter (rt := Ref.runtime)).
  reflexivity.
Defined.

(** X13.  For an offer with a parsed expiry the Expiring Soon condition
    holds exactly when the expiry lies less than eight full days after
    now; there is no lower bound, so every offer that has already
    expired is kept. *)
Theorem expiring_keeps_before_eight_days `{rt : Runtime} (now t : Z)
  (d dd : list (string * json)) (s : string) :
  lookup "duration" d = Some (JObj dd) ->
  lookup "to" dd = Some (JStr s) ->
  s <> "" ->
  strptime s = Ok t ->
  exists b,
    expiring_cond now (JObj d) = Ok b /\
    (b = true <-> (t - now < 8 * usec_per_day)%Z) /\
    ((t <= now)%Z -> b = true).
Proof.
  intros D T N P. exists (td_days (t - now) <=? 7)%Z.
  split; [eapply expiring_cond_dated; eassumption|].
  assert (E : (td_days (t - now) <=? 7)%Z = true
              <-> (t - now < 8 * usec_per_day)%Z).
  { rewrite Z.leb_le. exact (td_days_le (t - now) 7). }
  split; [exact E|].
  intros L. apply E. unfold usec_per_day. lia.
Qed.

Lemma expiring_keeps_before_eight_days_witness :
  exists b,
    expiring_cond (H := Ref.runtime) 63900000000000000
      (offer_expiring 1 "2020-01-01 00:00") = Ok b /\ b = true.
Proof.
  destruct (@expiring_keeps_before_eight_days Ref.runtime
              63900000000000000 63713433600000000
              [("id", JInt 1);
               ("duration", JObj [("to", JStr "2020-01-01 00:00")])]
              [("to", JStr "2020-01-01 00:00")]
              "2020-01-01 00:00" eq_refl eq_refl
              ltac:(discriminate) eq_refl)
    as [b [E [_ K]]].
  exists b. split; [exact E|]. apply K. lia.
Defined.

(** X14.  On offers whose budget is an [int] or is missing, and for a
    conversion that compares such budgets as numbers, High Value keeps
    exactly the offers with a budget above 50: 50 itself is left out and
    so is every offer without budget. *)
Theorem high_value_integer_budgets `{rt : Runtime} (st : session)
  (l : list json) :
  pending_offers st = JArr l ->
  (forall o, In o l ->
     exists n, int_budget o = Some n /\
               float_gt_50 (JInt n) = Ok (50 <? n)%Z) ->
  high_value st
  = {| out_state :=
         set_filtered
           (JArr (filter (fun o =>
                    match int_budget o with
                    | Some n => (50 <? n)%Z
                    | None => false
                    end) l)) st;
       out_ui := []; out_ctl := Continue |}.
Proof.
  intros P B. unfold high_value, assign_filtered. rewrite P. cbn [iter bind].
  rewrite (filter_res_total high_value_cond
             (fun o => match int_budget o with
                       | Some n => (50 <? n)%Z
                       | None => false
                       end) l); [reflexivity|].
  intros o I. destruct (B o I) as [n [N F]]. rewrite N.
  unfold int_budget in N. unfold high_value_cond.
  destruct o; try discriminate. cbn [get bind].
  destruct (lookup "budget" d) as [[]|]; try discriminate;
    inversion N; subst; exact F.
Qed.

Lemma high_value_integer_budgets_witness :
  let l := [JObj [("id", JInt 1); ("budget", JInt 10)];
            JObj [("id", JInt 2); ("budget", JInt 50)];
            JObj [("id", JInt 3); ("budget", JInt 51)];
            JObj [("id", JInt 4)];
            JObj [("id", JInt 5); ("budget", JInt 100)]] in
  let st := set_pending (JArr l) (initial_session no_credentials) in
  filtered_offers (out_state (high_value (H := Ref.runtime) st))
  = JArr [JObj [("id", JInt 3); ("budget", JInt 51)];
          JObj [("id", JInt 5); ("budget", JInt 100)]].
Proof.
  intros l st.
  rewrite (@high_value_integer_budgets Ref.runtime st l eq_refl).
  - reflexivity.
  - intros o I. simpl in I.
    destruct I as [<-|[<-|[<-|[<-|[<-|[]]]]]]; eexists; split; reflexivity.
Defined.

Lemma sort_by_expiry_returns_input_witness :
  sort_by_expiry [JObj [("id", JInt 2)]; JObj [("id", JInt 1)]]
  = Ok [JObj [("id", JInt 2)]; JObj [("id", JInt 1)]].
Proof.
  destruct (sort_by_expiry [JObj [("id", JInt 2)]; JObj [("id", JInt 1)]])
    as [l'|e] eqn:E.
  - f_equal. exact (sort_by_expiry_returns_input _ E).
  - discriminate E.
Defined.

(** ** More on the sessions the page can reach *)

Section LifecycleMore.

Context `{rt : Runtime}.

Lemma copy_container (v c : json) : copy v = Ok c -> c = v /\ is_container v = true.
Proof. destruct v; simpl; intros H; inversion H; auto. Qed.

Lemma generate_offer_draft (m : llm) (st : session) :
  draft_consistent st -> draft_consistent (out_state (generate_offer m st)).
Proof.
  intros I. unfold generate_offer.
  destruct (_ <- client m ;; content <- chat m ;;
            content' <- Fence.strip_fences content ;; json_loads content')
    as [params|e]; [|exact I].
  destruct (copy (offer_params (set_offer_params params st))) as [c|e] eqn:C.
  - destruct (copy_container _ C) as [-> K]. exact K.
  - exact I.
Qed.

Lemma handle_draft (a : action) (st : session) :
  draft_consistent st -> draft_consistent (out_state (handle a st)).
Proof.
  intros I. destruct a as [m|m q|w|now|]; cbn [handle].
  - now apply generate_offer_draft.
  - unfold search_offers.
    destruct (truthy (pending_offers st) && negb (String.eqb q "")).
    + destruct (filter_offers_with_llm m q (pending_offers st)). exact I.
    + destruct (negb (truthy (pending_offers st))); exact I.
  - unfold refresh_offers, fetch_pending_offers.
    destruct (fetch_try w st) as [[offers fetched]|e]; exact I.
  - unfold expiring_soon, assign_filtered.
    destruct (l <- iter (pending_offers st) ;; filter_res (expiring_cond now) l);
      exact I.
  - unfold high_value, assign_filtered.
    destruct (l <- iter (pending_offers st) ;; filter_res high_value_cond l);
      exact I.
Qed.

Lemma handle_credentials (a : action) (st : session) :
  lms_credentials (out_state (handle a st)) = lms_credentials st.
Proof.
  destruct a as [m|m q|w|now|]; cbn [handle].
  - unfold generate_offer.
    destruct (_ <- client m ;; content <- chat m ;;
              content' <- Fence.strip_fences content ;; json_loads content')
      as [params|e]; [|reflexivity].
    destruct (copy (offer_params (set_offer_params params st)));
      reflexivity.
  - unfold search_offers.
    destruct (truthy (pending_offers st) && negb (String.eqb q "")).
    + destruct (filter_offers_with_llm m q (pending_offers st)). reflexivity.
    + destruct (negb (truthy (pending_offers st))); reflexivity.
  - unfold refresh_offers, fetch_pending_offers.
    destruct (fetch_try w st) as [[offers fetched]|e]; reflexivity.
  - unfold expiring_soon, assign_filtered.
    destruct (l <- iter (pending_offers st) ;; filter_res (expiring_cond now) l);
      reflexivity.
  - unfold high_value, assign_filtered.
    destruct (l <- iter (pending_offers st) ;; filter_res high_value_cond l);
      reflexivity.
Qed.

End LifecycleMore.

(** X17.  In every session the page can reach, the credentials are those
    of the first run, and the draft is consistent: either no offer is
    marked created and there are no adjusted parameters, or one is and
    the adjusted parameters are a [dict] or a [list]. *)
Theorem reachable_draft_consistent `{rt : Runtime} (c : credentials)
  (st : session) :
  reachable c st -> lms_credentials st = c /\ draft_consistent st.
Proof.
  induction 1 as [|a st R [IH1 IH2]].
  - split; reflexivity.
  - split.
    + now rewrite handle_credentials.
    + now apply handle_draft.
Qed.

Lemma reachable_draft_consistent_witness :
  let st :=
    out_state (handle (H := Ref.runtime)
                 (Generate {| client := Ok tt; chat := Ok (Some "[7]") |})
                 (initial_session no_credentials)) in
  lms_credentials st = no_credentials /\ draft_consistent st.
Proof.
  intros st.
  apply (reachable_draft_consistent (rt := Ref.runtime)).
  apply reachable_action. apply reachable_initial.
Defined.

(** X18.  The two sides of the page do not touch each other: Generate
    leaves the held and the filtered offers alone, the four browsing
    actions leave the draft alone, and only Refresh changes the held
    offers. *)
Theorem actions_keep_other_side `{rt : Runtime} (a : action) (st : session) :
  let st' := out_state (handle a st) in
  match a with
  | Generate _ =>
      pending_offers st' = pending_offers st /\
      filtered_offers st' = filtered_offers st
  | Refresh _ =>
      offer_params st' = offer_params st /\
      offer_created st' = offer_created st /\
      adjusted_params st' = adjusted_params st
  | _ => set_filtered (filtered_offers st) st' = st
  end.
Proof.
  destruct a as [m|m q|w|now|]; cbn [handle].
  - apply generate_offer_keeps_offers.
  - unfold search_offers.
    destruct (truthy (pending_offers st) && negb (String.eqb q "")).
    + destruct (filter_offers_with_llm m q (pending_offers st)).
      now destruct st.
    + destruct (negb (truthy (pending_offers st))); now destruct st.
  - unfold refresh_offers, fetch_pending_offers.
    destruct (fetch_try w st) as [[offers fetched]|e]; repeat split.
  - unfold expiring_soon, assign_filtered.
    destruct (l <- iter (pending_offers st) ;; filter_res (expiring_cond now) l);
      now destruct st.
  - unfold high_value, assign_filtered.
    destruct (l <- iter (pending_offers st) ;; filter_res high_value_cond l);
      now destruct st.
Qed.

(** ** More on the Generate Offer handler *)

(** X19.  A reply that is JSON but neither an object nor an array is
    reported as an error only after it has replaced the offer
    parameters: the session keeps its adjusted parameters and its created
    mark, but the offer parameters are now the scalar. *)
Theorem generate_offer_scalar_overwrites `{rt : Runtime} (m : llm)
  (st : session) (s : string) (v : json) :
  client m = Ok tt ->
  chat m = Ok (Some s) ->
  json_loads (Fence.re_sub s) = Ok v ->
  is_container v = false ->
  generate_offer m st
  = {| out_state := set_offer_params v st;
       out_ui := [generate_error AttributeError];
       out_ctl := Continue |}.
Proof.
  intros C R P K. unfold generate_offer. rewrite C, R.
  cbn [bind Fence.strip_fences]. rewrite P.
  destruct v; try discriminate; reflexivity.
Qed.

Lemma generate_offer_scalar_overwrites_witness :
  let m := {| client := Ok tt; chat := Ok (Some "20") |} in
  let st := initial_session no_credentials in
  offer_params (out_state (generate_offer (H := Ref.runtime) m st)) = JInt 20
  /\ offer_created (out_state (generate_offer (H := Ref.runtime) m st))
     = false.
Proof.
  intros m st.
  rewrite (@generate_offer_scalar_overwrites Ref.runtime m st "20" (JInt 20)
             eq_refl eq_refl eq_refl eq_refl).
  split; reflexivity.
Defined.

(** X20.  When the client cannot be built, the request raises or the
    reply has no content, Generate changes nothing in the session and
    puts one error message on the page. *)
Theorem generate_offer_model_failure `{rt : Runtime} (m : llm) (st : session) :
  (exists e, client m = Raise e) \/
  (exists e, chat m = Raise e) \/
  chat m = Ok None ->
  exists e,
    generate_offer m st
    = {| out_state := st; out_ui := [generate_error e];
         out_ctl := Continue |}.
Proof.
  intros H. unfold generate_offer.
  destruct (client m) as [[]|e0] eqn:C.
  - destruct H as [[e H]|[[e H]|H]]; [discriminate| |]; rewrite H.
    + now exists e.
    + now exists TypeError.
  - now exists e0.
Qed.

Lemma generate_offer_model_failure_witness :
  let m := {| client := Ok tt; chat := Ok None |} in
  let st := initial_session no_credentials in
  chat m = Ok None /\
  exists e,
    generate_offer (H := Ref.runtime) m st
    = {| out_state := st; out_ui := [generate_error e];
         out_ctl := Continue |}.
Proof.
  intros m st. split; [reflexivity|].
  apply (generate_offer_model_failure (rt := Ref.runtime)).
  right; right. reflexivity.
Defined.

(** ** The card and the page *)

Section CardFacts.

Context `{rt : Runtime}.

Lemma sort_key_no_days (o : json) (k : key) (now : Z) :
  sort_key o = Ok k -> days_left now o = Ok DaysNA.
Proof.
  unfold sort_key, days_left. intros H.
  destruct (get o "duration" (JObj [])) as [d|]; [|discriminate].
  cbn [bind] in *. destruct (get d "to" JNull) as [t|]; [|discriminate].
  cbn [bind] in *. destruct (truthy t); [|reflexivity].
  destruct (get d "to" (JStr far_future)); discriminate.
Qed.

Lemma offer_card_days (now : Z) (o : json) (c : card) :
  offer_card now o = Ok c -> days_left now o = Ok (card_days_left c).
Proof.
  unfold offer_card. intros H.
  destruct (first_merchant o) as [merchant|]; [|discriminate].
  cbn [bind] in H.
  destruct (image_url o merchant) as [image|]; [|discriminate].
  cbn [bind] in H.
  destruct (days_left now o) as [left|]; [|discriminate]. cbn [bind] in H.
  destruct (get o "title" (JStr "Untitled Offer")); [|discriminate].
  cbn [bind] in H.
  destruct (get merchant "name" (JStr "N/A")); [|discriminate].
  cbn [bind] in H.
  destruct (get merchant "category" (JStr "N/A")); [|discriminate].
  cbn [bind] in H.
  destruct (get o "currency" (JObj [])) as [currency|]; [|discriminate].
  cbn [bind] in H.
  destruct (get currency "symbol" (JStr "$")); [|discriminate].
  cbn [bind] in H.
  destruct (get o "budget" (JStr "N/A")); [|discriminate].
  cbn [bind] in H.
  destruct (get o "status" (JStr "N/A")) as [status|]; [|discriminate].
  cbn [bind] in H.
  destruct status; try discriminate. now inversion H.
Qed.

Lemma map_res_returns_all {A B : Type} (f : A -> res B) (l : list A)
  (ys : list B) :
  map_res f l = Ok ys ->
  length ys = length l /\ forall x, In x l -> exists y, f x = Ok y.
Proof.
  revert ys; induction l as [|x r IH]; intros ys H; simpl in H.
  - inversion H. split; [reflexivity | intros x []].
  - destruct (f x) as [y|] eqn:F; [|discriminate]. cbn [bind] in H.
    destruct (map_res f r) as [ys'|]; [|discriminate]. cbn [bind] in H.
    inversion H; subst. destruct (IH ys' eq_refl) as [L K].
    split; [simpl; now rewrite L|].
    intros z [<-|I]; [now exists y | now apply K].
Qed.

Lemma cards_without_days (now : Z) (l : list json) (cards : list card) :
  (forall o, In o l -> days_left now o = Ok DaysNA) ->
  map_res (offer_card now) l = Ok cards ->
  Forall (fun c => card_days_left c = DaysNA) cards.
Proof.
  revert cards; induction l as [|o r IH]; intros cards D H; simpl in H.
  - inversion H. constructor.
  - destruct (offer_card now o) as [c|] eqn:C; [|discriminate].
    cbn [bind] in H.
    destruct (map_res (offer_card now) r) as [cs|]; [|discriminate].
    cbn [bind] in H. inversion H; subst. constructor.
    + pose proof (offer_card_days _ _ C) as E.
      rewrite (D o (or_introl eq_refl)) in E. now inversion E.
    + apply IH; [|reflexivity]. intros x I. apply D. now right.
Qed.

Lemma view_offers_cards (st : session) (l : list json) :
  view_offers st = Cards l ->
  offers_to_display st = JArr l /\
  forall o, In o l -> exists k, sort_key o = Ok k.
Proof.
  unfold view_offers. intros H.
  destruct (truthy (offers_to_display st)); [|discriminate].
  destruct (offers_to_display st) as [| | | | |l0|]; try discriminate.
  cbn [len bind sort_in_place] in H.
  destruct (sort_by_expiry l0) as [l'|] eqn:S; [|discriminate].
  inversion H; subst l'. clear H.
  unfold sort_by_expiry in S.
  destruct (map_res sort_key l0) as [keys|] eqn:K; [|discriminate].
  pose proof (map_res_sort_key _ K) as E. subst keys.
  cbn [bind] in S. rewrite sort_keyed_equal_keys in S. cbn [bind] in S.
  rewrite map_snd_combine in S. inversion S. subst l.
  split; [reflexivity|]. apply (map_res_returns_all _ _ K).
Qed.

End CardFacts.

(** X21.  Whenever the page draws cards, it draws one per offer of the
    displayed list and no card shows a number of days left: the sort
    before the cards returns only when no offer has an expiry. *)
Theorem page_cards_show_no_days `{rt : Runtime} (now : Z) (st : session)
  (cards : list card) :
  view_page now st = PageCards cards ->
  exists l,
    offers_to_display st = JArr l /\
    length cards = length l /\
    Forall (fun c => card_days_left c = DaysNA) cards.
Proof.
  unfold view_page. intros H.
  destruct (view_offers st) as [l| |] eqn:V; try discriminate.
  destruct (map_res (offer_card now) l) as [cs|] eqn:M; [|discriminate].
  inversion H; subst cs. clear H.
  destruct (view_offers_cards _ V) as [D K].
  exists l. split; [exact D|]. split.
  - apply (map_res_returns_all _ _ M).
  - apply (cards_without_days now l); [|exact M].
    intros o I. destruct (K o I) as [k S]. eapply sort_key_no_days; eassumption.
Qed.

Lemma page_cards_show_no_days_witness :
  let st := set_pending (JArr [undated_offer])
              (initial_session no_credentials) in
  exists cards l,
    view_page (H := Ref.runtime) 0 st = PageCards cards /\
    offers_to_display st = JArr l /\
    length cards = length l /\
    Forall (fun c => card_days_left c = DaysNA) cards.
Proof.
  intros st.
  destruct (view_page (H := Ref.runtime) 0 st) as [cards| |] eqn:V;
    try discriminate V.
  destruct (page_cards_show_no_days (rt := Ref.runtime) 0 st V)
    as [l [D [L F]]].
  exists cards, l. auto.
Defined.

(** X22.  The days left on a card are never negative: an offer that has
    expired shows zero. *)
Theorem days_left_not_negative `{rt : Runtime} (now : Z) (offer : json)
  (n : Z) :
  days_left now offer = Ok (DaysLeft n) -> (0 <= n)%Z.
Proof.
  unfold days_left. intros H.
  destruct (get offer "duration" (JObj [])) as [d|]; [|discriminate].
  cbn [bind] in H. destruct (get d "to" JNull) as [t|]; [|discriminate].
  cbn [bind] in H.
  destruct (truthy t && negb (Py.eq t (JStr no_end_date))); [|discriminate].
  destruct t; try discriminate.
  destruct (strptime s) as [expiry|]; [|discriminate].
  cbn [bind] in H. inversion H. lia.
Qed.

Lemma days_left_not_negative_witness :
  days_left (H := Ref.runtime) 63900000000000000 dated_offer
  = Ok (DaysLeft 0) /\ (0 <= 0)%Z.
Proof.
  split; [reflexivity|].
  apply (days_left_not_negative (rt := Ref.runtime) 63900000000000000
           dated_offer).
  reflexivity.
Defined.

(** X23.  The image of a card is never empty: whichever operand of the
    chain is taken, the value is truthy, the placeholder at the last. *)
Theorem image_url_truthy (offer merchant v : json) :
  image_url offer merchant = Ok v -> truthy v = true.
Proof.
  unfold image_url, por. intros H.
  destruct (get offer "offerLogo" JNull) as [logo|]; [|discriminate].
  cbn [bind] in H. destruct (truthy logo) eqn:T1; [now inversion H; subst|].
  destruct (get merchant "profilePicture" JNull) as [picture|];
    [|discriminate].
  cbn [bind] in H.
  destruct (truthy picture) eqn:T2; [now inversion H; subst|].
  destruct (get merchant "categoryLogo" JNull) as [c|]; [|discriminate].
  cbn [bind] in H. destruct (truthy c) eqn:T3; inversion H; subst.
  - exact T3.
  - reflexivity.
Qed.

Lemma image_url_truthy_witness :
  image_url undated_offer (JObj [("name", JStr "Bean")])
  = Ok (JStr placeholder_image) /\
  truthy (JStr placeholder_image) = true.
Proof.
  split; [reflexivity|].
  apply (image_url_truthy undated_offer (JObj [("name", JStr "Bean")])).
  reflexivity.
Defined.

(** ** Amounts and the preview *)

Section AmountFacts.

Lemma nearest_double_small (a : Z) :
  (0 <= a < 2 ^ 53)%Z -> nearest_double a = a.
Proof.
  intros [L U]. unfold nearest_double.
  assert (B : (Z.log2 a + 1 <= 53)%Z).
  { destruct (Z.eq_dec a 0) as [->|N]; [cbn; lia|].
    assert (Z.log2 a < 53)%Z by (apply Z.log2_lt_pow2; lia). lia. }
  apply Z.leb_le in B. now rewrite B.
Qed.

Lemma fixed2_whole (negative : bool) (a : Z) :
  (0 <= a)%Z ->
  fixed2 negative (100 * a)
  = ((if negative then "-" else "") ++ decimal a ++ ".00")%string.
Proof.
  intros L. unfold fixed2.
  replace (100 * a / 100)%Z with a
    by (rewrite Z.mul_comm, Z.div_mul; lia).
  replace (100 * a mod 100)%Z with 0%Z
    by (rewrite Z.mul_comm, Z.mod_mul; lia).
  replace (100 * a mod 10)%Z with 0%Z.
  - reflexivity.
  - replace (100 * a)%Z with (10 * a * 10)%Z by lia.
    now rewrite Z.mod_mul.
Qed.

End AmountFacts.

(** X24.  For an [int] below two to the power 53 in magnitude the
    currency text is exact: the dollar sign, a minus sign for a negative
    number, the digits of the number and two zero decimals. *)
Theorem format_currency_int (n : Z) :
  (Z.abs n < 2 ^ 53)%Z ->
  format_currency (JInt n)
  = NOk ("$" ++ (if (n <? 0)%Z then "-" else "")
         ++ decimal (Z.abs n) ++ ".00")%string.
Proof.
  intros B. unfold format_currency, format_2f.
  rewrite nearest_double_small by lia.
  assert (O : (2 ^ 1024 <=? Z.abs n)%Z = false).
  { apply Z.leb_gt. apply Z.lt_trans with (2 ^ 53)%Z; [exact B|].
    apply Z.pow_lt_mono_r; lia. }
  rewrite O. cbn [nbind]. now rewrite fixed2_whole by lia.
Qed.

Lemma format_currency_int_witness :
  (Z.abs 20 < 2 ^ 53)%Z /\ format_currency (JInt 20) = NOk "$20.00".
Proof.
  split; [reflexivity|].
  rewrite (format_currency_int 20); reflexivity.
Defined.

(** X25.  A reply that is the empty object is accepted by Generate and
    marked created, and the preview then shows nothing: an empty [dict]
    is falsy. *)
Theorem generate_empty_object_no_preview `{rt : Runtime} `{td : Timedelta}
  (m : llm) (st : session) (s : string) (now : Z) :
  client m = Ok tt ->
  chat m = Ok (Some s) ->
  json_loads (Fence.re_sub s) = Ok (JObj []) ->
  offer_created (out_state (generate_offer m st)) = true /\
  out_ctl (generate_offer m st) = Rerun /\
  offer_preview now (out_state (generate_offer m st)) = NoPreview.
Proof.
  intros C R P. unfold generate_offer. rewrite C, R.
  cbn [bind Fence.strip_fences]. rewrite P. repeat split.
Qed.

Lemma generate_empty_object_no_preview_witness :
  let m := {| client := Ok tt; chat := Ok (Some "{}") |} in
  let st := initial_session no_credentials in
  offer_preview (H := RefTime.timedelta) 0
    (out_state (generate_offer (H := Ref.runtime) m st))
  = NoPreview.
Proof.
  intros m st.
  eapply (generate_empty_object_no_preview (rt := Ref.runtime)
            (td := RefTime.timedelta)); reflexivity.
Defined.

(** X26.  A reply that is an object with some member but no value is
    accepted by Generate, and the preview of the next run raises: the
    value is read without a default. *)
Theorem generate_without_value_breaks_preview `{rt : Runtime}
  `{td : Timedelta} (m : llm) (st : session) (s : string) (now : Z)
  (d : list (string * json)) :
  client m = Ok tt ->
  chat m = Ok (Some s) ->
  json_loads (Fence.re_sub s) = Ok (JObj d) ->
  d <> [] ->
  lookup "value" d = None ->
  out_ctl (generate_offer m st) = Rerun /\
  exists e,
    offer_preview now (out_state (generate_offer m st)) = PreviewRaises e.
Proof.
  intros C R P N V. unfold generate_offer. rewrite C, R.
  cbn [bind Fence.strip_fences]. rewrite P. cbn. split; [reflexivity|].
  unfold offer_preview. cbn.
  destruct d as [|kv d']; [congruence|]. cbn [truthy].
  unfold preview_body. cbn [get lift nbind].
  destruct (timedelta_days _) as [delta|e]; [|now exists e]. cbn [nbind].
  destruct (datetime_add now delta) as [end_date|e]; [|now exists e].
  cbn [nbind getitem]. rewrite V.
  destruct (Py.eq _ _); cbn; now eexists.
Qed.

Lemma generate_without_value_breaks_preview_witness :
  let m := {| client := Ok tt; chat := Ok (Some reply_no_value) |} in
  let st := initial_session no_credentials in
  exists e,
    offer_preview (H := RefTime.timedelta) 63900000000000000
      (out_state (generate_offer (H := Ref.runtime) m st))
    = PreviewRaises e.
Proof.
  intros m st.
  eapply (generate_without_value_breaks_preview (rt := Ref.runtime)
            (td := RefTime.timedelta));
    try reflexivity.
  discriminate.
Defined.

(** X27.  For a draft that has a value and none of the optional members,
    the preview shows the fallbacks: the name Special Offer, the value as
    currency, a minimum spend of zero, an end seven days from now and
    unlimited redemptions. *)
Theorem preview_defaults `{td : Timedelta} (now : Z) (st : session)
  (d : list (string * json)) (v : json) (text : string) :
  offer_created st = true ->
  adjusted_params st = JObj d ->
  lookup "value" d = Some v ->
  format_currency v = NOk text ->
  lookup "duration_days" d = None ->
  lookup "value_type" d = None ->
  lookup "offer_name" d = None ->
  lookup "min_spend" d = None ->
  lookup "max_redemptions" d = None ->
  (0 <= now + 7 * usec_per_day < datetime_end)%Z ->
  offer_preview now st
  = Shown {| preview_name := JStr "Special Offer";
             preview_value := Amount text;
             preview_type :=
               match lookup "offer_type" d with
               | Some t => t
               | None => JNull
               end;
             preview_min_spend := "$0.00";
             preview_end := (now + 7 * usec_per_day)%Z;
             preview_max_redemptions := JStr "Unlimited" |}.
Proof.
  intros C A V F D T N M X B. unfold offer_preview. rewrite C, A.
  destruct d as [|kv d']; [discriminate|].
  cbn [truthy andb]. unfold preview_body. cbn [get lift nbind].
  rewrite D. cbn [timedelta_days]. cbn [Z.abs Z.leb Z.compare Pos.compare
    Pos.compare_cont max_delta_days nbind].
  unfold datetime_add.
  assert (E : ((0 <=? now + 7 * usec_per_day)
               && (now + 7 * usec_per_day <? datetime_end))%Z = true).
  { apply andb_true_intro. split; [apply Z.leb_le | apply Z.ltb_lt]; lia. }
  rewrite E. cbn [nbind]. rewrite T. cbn [Py.eq nbind getitem].
  rewrite V. cbn [lift nbind]. rewrite F. cbn [nbind].
  rewrite N, M, X. reflexivity.
Qed.

Lemma preview_defaults_witness :
  let st :=
    set_offer_created true
      (set_adjusted_params (JObj [("value", JInt 20)])
         (initial_session no_credentials)) in
  offer_preview (H := RefTime.timedelta) 63900000000000000 st
  = Shown {| preview_name := JStr "Special Offer";
             preview_value := Amount "$20.00";
             preview_type := JNull;
             preview_min_spend := "$0.00";
             preview_end := (63900000000000000 + 7 * usec_per_day)%Z;
             preview_max_redemptions := JStr "Unlimited" |}.
Proof.
  intros st.
  apply (@preview_defaults RefTime.timedelta 63900000000000000 st
           [("value", JInt 20)] (JInt 20) "$20.00");
    try reflexivity.
  unfold datetime_end, usec_per_day. lia.
Defined.

Lemma reachable_filtered_from_base_witness :
  filtered_from_base
    (out_state (handle (H := Ref.runtime)
       (Search {| client := Ok tt; chat := Ok (Some reply_1_3) |} "food")
       (out_state (handle (H := Ref.runtime) (Refresh one_offer_listed)
          (initial_session no_credentials))))).
Proof.
  apply (reachable_filtered_from_base (rt := Ref.runtime)
           (c := no_credentials)).
  apply reachable_action. apply reachable_action. apply reachable_initial.
Defined.

Lemma unloaded_has_no_filter_witness :
  let st :=
    out_state (handle (H := Ref.runtime) (Refresh login_refused)
      (out_state (handle (H := Ref.runtime) (ExpiringSoon 0)
         (initial_session no_credentials)))) in
  pending_offers st = JNull /\ filtered_offers st = JNull.
Proof.
  intros st. split; [reflexivity|].
  apply (unloaded_has_no_filter (rt := Ref.runtime) (c := no_credentials)).
  - apply reachable_action. apply reachable_action. apply reachable_initial.
  - reflexivity.
Defined.
